(** * jira_gen: text extraction and workflow result assembly

    A shallow embedding of the diagram extraction of [main.py] and
    [api_backend.py], of the JSON clean-up of [get_latest_results] and of
    [BusinessAnalysisSystem.process_user_input], with the properties of the
    specification stated over it. *)

From Stdlib Require Import Strings.String Strings.Ascii DecimalString DecimalNat
  Lia.
From stdpp Require Import gmap strings list.

(** ** Python text

    A Python [str] is a list of characters; an [ascii] stands for a code
    point below 256.  Literals are written with [lit]; the line feed, which a
    Rocq string literal cannot escape, is [nl]. *)

Abbreviation str := (list ascii).

Definition lit (s : string) : str := list_ascii_of_string s.

Definition nl : ascii := "010"%char.

(** [str(n)] for a non-negative integer. *)
Definition dec (n : nat) : str := lit (NilEmpty.string_of_uint (Nat.to_uint n)).

(** [str.isspace] on one character, which is also what [\s] matches in a
    [str] pattern: TAB..CR, FS..US, space, NEL and NBSP. *)
Definition isspace (c : ascii) : bool :=
  let n := nat_of_ascii c in
  ((9 <=? n) && (n <=? 13)) || ((28 <=? n) && (n <=? 32))
  || (n =? 133) || (n =? 160).

Fixpoint lstrip (s : str) : str :=
  match s with
  | [] => []
  | c :: s' => if isspace c then lstrip s' else s
  end.

Fixpoint rstrip (s : str) : str :=
  match s with
  | [] => []
  | c :: s' =>
      match rstrip s' with
      | [] => if isspace c then [] else [c]
      | r => c :: r
      end
  end.

(** [s.strip()] *)
Definition strip (s : str) : str := rstrip (lstrip s).

(** [s.startswith(w)] *)
Fixpoint startswith (w s : str) : bool :=
  match w, s with
  | [], _ => true
  | _ :: _, [] => false
  | a :: w', b :: s' => Ascii.eqb a b && startswith w' s'
  end.

(** [w in s] *)
Fixpoint contains (w s : str) : bool :=
  startswith w s || match s with [] => false | _ :: s' => contains w s' end.

(** [s.split('\n')] *)
Fixpoint split_lines (s : str) : list str :=
  match s with
  | [] => [[]]
  | c :: s' =>
      if Ascii.eqb c nl then [] :: split_lines s'
      else match split_lines s' with
           | l :: ls => (c :: l) :: ls
           | [] => [[c]]
           end
  end.

(** ['\n'.join(ls)] *)
Fixpoint join_lines (ls : list str) : str :=
  match ls with
  | [] => []
  | [l] => l
  | l :: ls' => l ++ nl :: join_lines ls'
  end.

(** ** Regular expressions

    The fragment of [re] that the patterns of the program use, run by a
    backtracking matcher in continuation-passing style: [exec r s g k] matches
    [r] at the start of [s], then hands the rest of the text and the capture
    group to [k]; when [k] fails the matcher tries its next alternative. *)

Inductive regex :=
| Lit (w : str)            (* literal text *)
| Cat (r1 r2 : regex)      (* r1 r2 *)
| Alt (r1 r2 : regex)      (* r1|r2, in that order *)
| AnyLazy                  (* .*?  under re.DOTALL *)
| SpaceStar                (* \s*  (greedy) *)
| Group (r : regex)        (* (r), the capture group *)
| Ahead (r : regex)        (* (?=r) *)
| EndLine.                 (* $    under re.MULTILINE *)

Fixpoint lazy_any {R} (k : str -> option R) (s : str) : option R :=
  match k s with
  | Some x => Some x
  | None => match s with [] => None | _ :: s' => lazy_any k s' end
  end.

Fixpoint greedy_space {R} (k : str -> option R) (s : str) : option R :=
  match s with
  | c :: s' =>
      if isspace c then
        match greedy_space k s' with Some x => Some x | None => k s end
      else k s
  | [] => k s
  end.

Fixpoint exec {R} (r : regex) (s : str) (g : option str)
    (k : str -> option str -> option R) : option R :=
  match r with
  | Lit w => if startswith w s then k (drop (length w) s) g else None
  | Cat r1 r2 => exec r1 s g (fun s' g' => exec r2 s' g' k)
  | Alt r1 r2 =>
      match exec r1 s g k with Some x => Some x | None => exec r2 s g k end
  | AnyLazy => lazy_any (fun s' => k s' g) s
  | SpaceStar => greedy_space (fun s' => k s' g) s
  | Group r1 =>
      exec r1 s g (fun s' _ => k s' (Some (take (length s - length s') s)))
  | Ahead r1 =>
      match exec r1 s g (fun _ _ => Some tt) with
      | Some _ => k s g
      | None => None
      end
  | EndLine =>
      match s with
      | [] => k s g
      | c :: _ => if Ascii.eqb c nl then k s g else None
      end
  end.

(** A match anchored at the start of [s]: what [findall] reports for it
    (group 1 when the pattern has a group, else the whole match) and how many
    characters it spans. *)
Definition match_at (r : regex) (s : str) : option (str * nat) :=
  exec r s None
    (fun s' g =>
       let n := length s - length s' in Some (default (take n s) g, n)).

(** The scan of [re.findall]: matches are taken leftmost first and do not
    overlap; [skip] counts the characters of the last match still to pass.
    Every pattern of the program starts with a literal, so no match is empty
    and none starts at the end of the text. *)
Fixpoint scan (r : regex) (s : str) (skip : nat) : list str :=
  match s with
  | [] => []
  | _ :: s' =>
      match skip with
      | S n => scan r s' n
      | O =>
          match match_at r s with
          | Some (m, n) => m :: scan r s' (pred n)
          | None => scan r s' 0
          end
      end
  end.

Definition findall (r : regex) (s : str) : list str := scan r s 0.

(** [re.search(r, s)], reduced to [group(1)] of the match found. *)
Fixpoint search (r : regex) (s : str) : option str :=
  match match_at r s with
  | Some (m, _) => Some m
  | None => match s with [] => None | _ :: s' => search r s' end
  end.

Definition alts (rs : list regex) (last : regex) : regex :=
  foldr Alt last rs.

(** ** The patterns *)

(** [r'```mermaid\n(.*?)\n```'] *)
Definition fence_open : str := lit "```mermaid" ++ [nl].
Definition fence_close : str := nl :: lit "```".

Definition mermaid_pattern : regex :=
  Cat (Lit fence_open) (Cat (Group AnyLazy) (Lit fence_close)).

(** [(?=\n\n|\n#|\nsequence|\ngraph|\nerDiagram|\nstateDiagram|$)] *)
Definition diagram_end : regex :=
  Ahead (alts [Lit [nl; nl]; Lit (nl :: lit "#"); Lit (nl :: lit "sequence");
               Lit (nl :: lit "graph"); Lit (nl :: lit "erDiagram");
               Lit (nl :: lit "stateDiagram")] EndLine).

(** The four [diagram_patterns] of [_extract_mermaid_diagrams], in order. *)
Definition graph_pattern : regex :=
  Cat (Group (Cat (Lit (lit "graph "))
                (Cat (alts [Lit (lit "TB"); Lit (lit "TD"); Lit (lit "BT");
                            Lit (lit "RL")] (Lit (lit "LR")))
                     AnyLazy)))
      diagram_end.

Definition keyword_pattern (kw : string) : regex :=
  Cat (Group (Cat (Lit (lit kw)) AnyLazy)) diagram_end.

Definition diagram_patterns : list regex :=
  [graph_pattern; keyword_pattern "sequenceDiagram";
   keyword_pattern "erDiagram"; keyword_pattern "stateDiagram-v2"].

(** [r'```json\s*\n(.*?)\n```'] *)
Definition json_pattern : regex :=
  Cat (Lit (lit "```json"))
      (Cat SpaceStar (Cat (Lit [nl]) (Cat (Group AnyLazy) (Lit fence_close)))).

(** ** Effects: the log and exceptions

    The program writes to a module-level logger and raises and catches
    exceptions.  A computation takes the log so far and returns a value or an
    exception together with the extended log.  The exceptions are those
    derived from [Exception], which every [except Exception] of the program
    catches; a [KeyboardInterrupt] or [SystemExit] that passes through a call
    is outside the model, and what is stated about a call that returns or
    raises is stated for these outcomes. *)

Inductive exn := Exception (msg : str).

(** [str(e)] *)
Definition exn_str (e : exn) : str := let 'Exception msg := e in msg.

Inductive result (A : Type) :=
| Ok (a : A)
| Raise (e : exn).
Arguments Ok {A} a.
Arguments Raise {A} e.

Inductive level := INFO | ERROR.

Abbreviation log := (list (level * str)).

Definition M (A : Type) : Type := log -> result A * log.

Definition ret {A} (a : A) : M A := fun l => (Ok a, l).

Definition bind {A B} (m : M A) (f : A -> M B) : M B :=
  fun l =>
    match m l with
    | (Ok a, l') => f a l'
    | (Raise e, l') => (Raise e, l')
    end.

Definition lift {A} (r : result A) : M A := fun l => (r, l).

(** [try: m  except Exception as e: h e] *)
Definition try_except {A} (m : M A) (h : exn -> M A) : M A :=
  fun l =>
    match m l with
    | (Ok a, l') => (Ok a, l')
    | (Raise e, l') => h e l'
    end.

Definition logger_info (msg : str) : M unit :=
  fun l => (Ok tt, l ++ [(INFO, msg)]).

Definition logger_error (msg : str) : M unit :=
  fun l => (Ok tt, l ++ [(ERROR, msg)]).

Notation "x <- m ;; f" := (bind m (fun x => f))
  (at level 100, m at next level, right associativity).
Notation "m ;; f" := (bind m (fun _ => f))
  (at level 100, right associativity).

(** ** [api_backend.extract_mermaid_diagrams] *)

(** The values the function can be handed at the boundary. *)
Inductive pyval :=
| PyNone
| PyStr (s : str)
| PyInt (n : Z).

(** Truth value of a Python object, as [if not text] tests it. *)
Definition truthy (v : pyval) : bool :=
  match v with
  | PyNone => false
  | PyStr [] => false
  | PyStr (_ :: _) => true
  | PyInt n => negb (n =? 0)%Z
  end.

(** The dict [{'title': ..., 'code': ...}]. *)
Record ExtractedDiagram := { title : str; code : str }.

(** [re.findall] accepts only text. *)
Definition re_findall (r : regex) (v : pyval) : result (list str) :=
  match v with
  | PyStr s => Ok (findall r s)
  | _ => Raise (Exception (lit "expected string or bytes-like object"))
  end.

Definition extract_mermaid_diagrams (text : pyval)
    : result (list ExtractedDiagram) :=
  if negb (truthy text) then Ok []
  else
    match re_findall mermaid_pattern text with
    | Ok matches =>
        Ok (imap (fun i m => {| title := lit "Diagram " ++ dec (S i);
                                code := strip m |}) matches)
    | Raise e => Raise e
    end.

(** ** [BusinessAnalysisSystem._extract_mermaid_diagrams] *)

(** The loop over [diagram_patterns], extending [matches] with what each
    pattern finds. *)
Definition extend_with_patterns (matches : list str) (text : str) : list str :=
  foldl (fun acc p => acc ++ findall p text) matches diagram_patterns.

(** The fenced blocks, or when there is none the matches of each of the
    [diagram_patterns] in turn. *)
Definition candidate_matches (text : str) : list str :=
  let matches := findall mermaid_pattern text in
  match matches with
  | [] => extend_with_patterns matches text
  | _ :: _ => matches
  end.

(** The clean-up loop. *)
Fixpoint clean_up (matches : list str) : list str :=
  match matches with
  | [] => []
  | m :: ms =>
      let cleaned := strip m in
      match cleaned with
      | [] => clean_up ms
      | _ :: _ =>
          if 10 <? length cleaned then cleaned :: clean_up ms
          else clean_up ms
      end
  end.

Definition _extract_mermaid_diagrams (text : str) : M (list str) :=
  let cleaned_matches := clean_up (candidate_matches text) in
  logger_info (lit "Extracted " ++ dec (length cleaned_matches)
               ++ lit " Mermaid diagrams from text") ;;
  ret cleaned_matches.

(** ** The JSON clean-up of [get_latest_results] *)

Definition json_fence : str := lit "```json".

(** The text handed to [json.loads]. *)
Definition clean_content (content : str) : str :=
  if startswith json_fence (strip content) then
    let lines := split_lines (strip content) in
    if bool_decide (head lines = Some json_fence)
       && bool_decide (last lines = Some (lit "```"))
    then join_lines (drop 1 (take (length lines - 1) lines))
    else if contains json_fence content then
      match search json_pattern content with
      | Some g => g
      | None => content
      end
    else content
  else content.

Section JsonArtifact.
(** [json.loads] is the standard library's; [json_loads] is the decoded
    value or the [JSONDecodeError] that it raises, which is all that the
    inner [except] of the loop catches.  What else [json.loads] may raise
    passes through [load_json_artifact] to the [except] of the file, and is
    handled in [load_output]. *)
Variable json : Type.
Variable json_loads : str -> result json.

(** What ends up under the file's key in [results]. *)
Inductive artifact :=
| Parsed (j : json)
| AsText (s : str).

Definition load_json_artifact (filename content : str) : M artifact :=
  match json_loads (clean_content content) with
  | Ok j => ret (Parsed j)
  | Raise je =>
      logger_error (lit "Error parsing JSON in " ++ filename ++ lit ": "
                    ++ exn_str je) ;;
      logger_error (lit "Content preview: " ++ take 200 content
                    ++ lit "...") ;;
      ret (AsText content)
  end.
End JsonArtifact.
Arguments Parsed {json} j.
Arguments AsText {json} s.

(** ** [BusinessAnalysisSystem.process_user_input] *)

(** One entry of [result.tasks_output]: its [raw] attribute when it has one,
    and what [str] makes of the object. *)
Record TaskOutput := { task_raw : option str; task_str : str }.

(** What [crew.kickoff] returns: [tasks_output] and [raw], each possibly
    absent. *)
Record CrewOutput := {
  tasks_output : option (list TaskOutput);
  crew_raw : option str
}.

(** [str(t.raw) if hasattr(t, 'raw') else str(t)] *)
Definition output_text (t : TaskOutput) : str :=
  match task_raw t with
  | Some r => r
  | None => task_str t
  end.

(** [result.tasks_output] when the attribute is there and the list is not
    empty; no output is read otherwise. *)
Definition outputs_of (result : CrewOutput) : list TaskOutput :=
  match tasks_output result with
  | Some (t :: ts) => t :: ts
  | _ => []
  end.

(** The text of output [i], when there are more than [i] outputs. *)
Definition nth_output (outs : list TaskOutput) (i : nat) : str :=
  match outs !! i with
  | Some t => output_text t
  | None => []
  end.

(** [project_key or 'DEFAULT'] *)
Definition project_key_or_default (project_key : option str) : str :=
  match project_key with
  | Some (c :: k) => c :: k
  | _ => lit "DEFAULT"
  end.

Section Workflow.
(** A created issue, as the tracker tool reports it. *)
Variable issue : Type.

(** The values of the returned dict. *)
Inductive pyobj :=
| VStr (s : str)
| VList (l : list str)
| VIssues (d : gmap string (list issue)).

(** [self.crew.kickoff(inputs={'user_input': .., 'project_key': ..})]: the
    crew belongs to the crewai library and either returns its output or
    raises. *)
Variable crew_kickoff : str -> str -> result CrewOutput.

(** [JiraTool().process_project_manager_output(raw)], from
    [tools/jira_tool.py]: a dict of created issues or an exception. *)
Variable process_project_manager_output :
  str -> result (gmap string (list issue)).

Definition workflow (user_input : str) (project_key : option str)
    : M (gmap string pyobj) :=
  logger_info (lit "Processing user input: " ++ take 100 user_input
               ++ lit "...") ;;
  logger_info (lit "Starting multi-agent workflow...") ;;
  result <- lift (crew_kickoff user_input
                    (project_key_or_default project_key)) ;;
  logger_info (lit "Multi-agent workflow completed successfully") ;;
  let outs := outputs_of result in
  let business_req := nth_output outs 0 in
  let technical_doc := nth_output outs 1 in
  let jira_artifacts_raw := nth_output outs 2 in
  let technical_doc :=
    match business_req, crew_raw result with
    | [], Some r => r
    | _, _ => technical_doc
    end in
  jira_result <- lift (process_project_manager_output jira_artifacts_raw) ;;
  let epics_count := length (default [] (jira_result !! "epics")) in
  let stories_count := length (default [] (jira_result !! "stories")) in
  let jira_summary :=
    lit "Created " ++ dec epics_count ++ lit " epics and "
    ++ dec stories_count ++ lit " stories in Jira" in
  mermaid_diagrams <- _extract_mermaid_diagrams technical_doc ;;
  ret (<["status" := VStr (lit "completed")]>
       (<["business_requirements" := VStr business_req]>
       (<["jira_artifacts" := VStr jira_summary]>
       (<["jira_artifacts_raw" := VStr jira_artifacts_raw]>
       (<["jira_issues_created" := VIssues jira_result]>
       (<["technical_documentation" := VStr technical_doc]>
       (<["mermaid_diagrams" := VList mermaid_diagrams]> ∅))))))).

Definition process_user_input (user_input : str) (project_key : option str)
    : M (gmap string pyobj) :=
  try_except (workflow user_input project_key)
    (fun e =>
       logger_error (lit "Workflow execution error: " ++ exn_str e) ;;
       ret (<["status" := VStr (lit "error")]>
            (<["error_message" := VStr (exn_str e)]> ∅))).
End Workflow.
Arguments VStr {issue} s.
Arguments VList {issue} l.
Arguments VIssues {issue} d.

(** The crew is built with [Process.sequential] over the three tasks of the
    analyst, the architect and the project manager.  In that process of the
    crewai library the tasks run one after the other, each given the outputs
    of the tasks before it, and an exception of a task ends [kickoff] and
    reaches the caller. *)
Definition Task : Type := list TaskOutput -> str -> str -> result TaskOutput.

Fixpoint run_sequential (tasks : list Task) (done : list TaskOutput)
    (user_input project_key : str) : result (list TaskOutput) :=
  match tasks with
  | [] => Ok done
  | t :: ts =>
      match t done user_input project_key with
      | Ok out => run_sequential ts (done ++ [out]) user_input project_key
      | Raise e => Raise e
      end
  end.

Definition sequential_kickoff (tasks : list Task)
    (user_input project_key : str) : result CrewOutput :=
  match run_sequential tasks [] user_input project_key with
  | Ok outs =>
      Ok {| tasks_output := Some outs;
            crew_raw := Some (default [] (output_text <$> last outs)) |}
  | Raise e => Raise e
  end.

(** ** Tracker synchronisation *)

(** Modelled from the spec: [tools/jira_tool.py], whose [JiraTool] parses the
    project manager's payload and creates the issues, is not among the
    sources.  The work items, the rule for a story whose epic key does not
    resolve and [sync] follow sections 3 and 4.3 of the specification; the
    tracker's [create_issue] is the external collaborator of section 6. *)
Module Tracker.

Inductive Kind := Epic | Story.

(** A parsed work item.  An epic carries the local key that stories refer
    to; a story carries the key of its parent epic. *)
Record WorkItemDraft := {
  kind : Kind;
  local_key : str;
  item_title : str;
  description : str;
  acceptance_criteria : list str;
  parent_key : option str
}.

Record TrackerSyncResult := {
  created : list (WorkItemDraft * str);
  failed : list (WorkItemDraft * str)
}.

Definition is_epic (i : WorkItemDraft) : bool :=
  match kind i with Epic => true | Story => false end.

Definition is_story (i : WorkItemDraft) : bool := negb (is_epic i).

(** Does the parent reference of [i] resolve within the batch? *)
Definition resolves (items : list WorkItemDraft) (i : WorkItemDraft) : bool :=
  match kind i, parent_key i with
  | Story, Some k =>
      existsb (fun e => is_epic e && bool_decide (local_key e = k)) items
  | _, _ => true
  end.

(** Summary counts, taken from the lengths of the two lists. *)
Definition counts (r : TrackerSyncResult) : nat * nat :=
  (length (created r), length (failed r)).

Section Sync.
(** [create_issue(project_key, item)]: the external ID, or the reason of
    the remote error. *)
Variable create_issue : str -> WorkItemDraft -> str + str.

(** One item: an unresolved story is recorded as failed; otherwise remote
    creation is attempted and its outcome recorded.  The batch goes on
    in both cases. *)
Definition sync_item (items : list WorkItemDraft) (project_key : str)
    (r : TrackerSyncResult) (i : WorkItemDraft) : TrackerSyncResult :=
  if resolves items i then
    match create_issue project_key i with
    | inr external_id =>
        {| created := created r ++ [(i, external_id)];
           failed := failed r |}
    | inl reason =>
        {| created := created r; failed := failed r ++ [(i, reason)] |}
    end
  else
    {| created := created r;
       failed := failed r ++ [(i, lit "unresolved epic reference")] |}.

(** What one item adds to [created]: the item with its external ID when it
    resolves and the tracker creates it. *)
Definition created_entry (items : list WorkItemDraft) (project_key : str)
    (i : WorkItemDraft) : option (WorkItemDraft * str) :=
  if resolves items i then
    match create_issue project_key i with
    | inr external_id => Some (i, external_id)
    | inl _ => None
    end
  else None.

(** What one item adds to [failed]: the item with the reason of the remote
    error, or with the parse error of an unresolved story. *)
Definition failed_entry (items : list WorkItemDraft) (project_key : str)
    (i : WorkItemDraft) : option (WorkItemDraft * str) :=
  if resolves items i then
    match create_issue project_key i with
    | inr _ => None
    | inl reason => Some (i, reason)
    end
  else Some (i, lit "unresolved epic reference").

(** The item is resolvable and the tracker accepts it. *)
Definition accepted (items : list WorkItemDraft) (project_key : str)
    (i : WorkItemDraft) : bool :=
  resolves items i
  && match create_issue project_key i with
     | inr _ => true
     | inl _ => false
     end.

(** Epics are created before the stories. *)
Definition sync (items : list WorkItemDraft) (project_key : str)
    : TrackerSyncResult :=
  foldl (sync_item items project_key)
    {| created := []; failed := [] |}
    (List.filter is_epic items ++ List.filter is_story items).
End Sync.

End Tracker.

(** ** Environment and configuration checks *)

(** [sep.join(ls)] *)
Fixpoint str_join (sep : str) (ls : list str) : str :=
  match ls with
  | [] => []
  | [l] => l
  | l :: ls' => l ++ sep ++ str_join sep ls'
  end.

(** [os.getenv(var)] on the process environment: the value, or [None]. *)
Definition getenv (environ : gmap string str) (var : string) : option str :=
  environ !! var.

(** Truth value of what [os.getenv] returns: set and not empty. *)
Definition env_set (environ : gmap string str) (var : string) : bool :=
  match getenv environ var with
  | Some (_ :: _) => true
  | _ => false
  end.

Definition required_vars : list string :=
  ["JIRA_SERVER"; "JIRA_USERNAME"; "JIRA_API_TOKEN"].

(** The loop of [validate_environment] that collects the missing variables. *)
Definition missing_vars (environ : gmap string str) : list string :=
  foldl (fun missing var =>
           if env_set environ var then missing else missing ++ [var])
    [] required_vars.

(** [BusinessAnalysisSystem.validate_environment] *)
Definition validate_environment (environ : gmap string str) : M bool :=
  match missing_vars environ with
  | [] => ret true
  | missing =>
      logger_error (lit "Missing required environment variables: "
                    ++ str_join (lit ", ") (lit <$> missing)) ;;
      ret false
  end.

(** The class attributes of [Config] that hold credentials, as the class body
    sets them when the module is loaded: [os.getenv(name, "")]. *)
Definition Config (environ : gmap string str) : gmap string str :=
  <["JIRA_SERVER" := default [] (getenv environ "JIRA_SERVER")]>
  (<["JIRA_USERNAME" := default [] (getenv environ "JIRA_USERNAME")]>
  (<["JIRA_API_TOKEN" := default [] (getenv environ "JIRA_API_TOKEN")]> ∅)).

(** [getattr(cls, key)] *)
Definition getattr (cls : gmap string str) (key : string) : result str :=
  match cls !! key with
  | Some v => Ok v
  | None =>
      Raise (Exception (lit "type object 'Config' has no attribute '"
                        ++ lit key ++ lit "'"))
  end.

(** The dict that [validate_config] returns. *)
Record validation_result := {
  valid : bool;
  missing_keys : list string;
  warnings : list str
}.

Definition required_keys : list string :=
  ["JIRA_SERVER"; "JIRA_USERNAME"; "JIRA_API_TOKEN"].

(** The loop of [validate_config] over [required_keys]. *)
Fixpoint check_required_keys (cls : gmap string str) (keys : list string)
    (r : validation_result) : result validation_result :=
  match keys with
  | [] => Ok r
  | key :: keys' =>
      match getattr cls key with
      | Raise e => Raise e
      | Ok [] =>
          check_required_keys cls keys'
            {| valid := false;
               missing_keys := missing_keys r ++ [key];
               warnings := warnings r |}
      | Ok (_ :: _) => check_required_keys cls keys' r
      end
  end.

(** The warning of [validate_config]. *)
Definition protocol_warning : str :=
  lit "JIRA_SERVER should include protocol (http:// or https://)".

(** [Config.validate_config] *)
Definition validate_config (cls : gmap string str) : result validation_result :=
  match check_required_keys cls required_keys
          {| valid := true; missing_keys := []; warnings := [] |} with
  | Raise e => Raise e
  | Ok r =>
      match getattr cls "JIRA_SERVER" with
      | Raise e => Raise e
      | Ok server =>
          match server with
          | [] => Ok r
          | _ :: _ =>
              if negb (startswith (lit "http://") server
                       || startswith (lit "https://") server)
              then Ok {| valid := valid r;
                         missing_keys := missing_keys r;
                         warnings :=
                           warnings r
                           ++ [protocol_warning] |}
              else Ok r
          end
      end
  end.

(** ** The HTTP handlers of [api_backend.py] *)

(** What a handler returns: [jsonify({'error': e}), code], or
    [jsonify({'status': 'success', 'results': r})] with the default code. *)
Inductive response (E R : Type) :=
| Error (error : E) (code : nat)
| Success (results : R).
Arguments Error {E R} error code.
Arguments Success {E R} results.

Definition status_code {E R} (r : response E R) : nat :=
  match r with
  | Error _ code => code
  | Success _ => 200
  end.

(** [s.endswith(w)] *)
Definition endswith (w s : str) : bool := startswith (reverse w) (reverse s).

(** [s.replace(old, new)] for a non-empty [old]: the occurrences are taken
    from the left and do not overlap; [skip] counts what is left to pass of
    the occurrence just replaced. *)
Fixpoint replace_from (old new s : str) (skip : nat) : str :=
  match s with
  | [] => []
  | c :: s' =>
      match skip with
      | S n => replace_from old new s' n
      | O =>
          if startswith old s then new ++ replace_from old new s' (length old - 1)
          else c :: replace_from old new s' 0
      end
  end.

Definition replace (old new s : str) : str := replace_from old new s 0.

Section Analyze.
Variable issue : Type.

(** The module-level [business_system]: the system with its crew and tracker
    tool, or [None] when its construction failed. *)
Record BusinessAnalysisSystem := {
  crew_kickoff : str -> str -> result CrewOutput;
  process_project_manager_output : str -> result (gmap string (list issue))
}.

(** The values of the [results] dict of [analyze_requirements]. *)
Inductive analysis_value :=
| AObj (o : pyobj issue)
| ADiagrams (l : list ExtractedDiagram).

(** Truth value of an entry of the workflow's dict. *)
Definition pyobj_truthy (o : pyobj issue) : bool :=
  match o with
  | VStr [] => false
  | VStr (_ :: _) => true
  | VList [] => false
  | VList (_ :: _) => true
  | VIssues d => negb (bool_decide (size d = 0))
  end.

(** [extract_mermaid_diagrams] on an entry of the workflow's dict: a text is
    searched, an empty list or dict is falsy, and [re.findall] rejects any
    other list or dict. *)
Definition extract_from_pyobj (o : pyobj issue)
    : result (list ExtractedDiagram) :=
  match o with
  | VStr s => extract_mermaid_diagrams (PyStr s)
  | _ =>
      if pyobj_truthy o
      then Raise (Exception (lit "expected string or bytes-like object"))
      else Ok []
  end.

(** [result.get(key) == text] *)
Definition equals_text (o : option (pyobj issue)) (text : str) : bool :=
  match o with
  | Some (VStr s) => bool_decide (s = text)
  | _ => false
  end.

(** [jsonify] raises a [TypeError] on an object that the JSON encoder does
    not know.  Texts, lists of texts and the diagrams can always be encoded;
    [jsonify_fault d] is the exception for the tracker tool's dict [d], if
    the encoder fails on it. *)
Variable jsonify_fault : gmap string (list issue) -> option exn.

Definition pyobj_fault (o : pyobj issue) : option exn :=
  match o with
  | VIssues d => jsonify_fault d
  | _ => None
  end.

(** [jsonify(body)], where [values] are the entries of the body taken from
    the workflow's dict, in the order of the body. *)
Definition jsonify {A} (values : list (pyobj issue)) (body : A) : M A :=
  match omap pyobj_fault values with
  | e :: _ => lift (Raise e)
  | [] => ret body
  end.

(** [requirements[:100]] *)
Definition first_100 (requirements : pyval) : result str :=
  match requirements with
  | PyStr s => Ok (take 100 s)
  | PyInt _ => Raise (Exception (lit "'int' object is not subscriptable"))
  | PyNone => Raise (Exception (lit "'NoneType' object is not subscriptable"))
  end.

(** The text that [process_user_input] is called with; anything that is
    not text has already failed in [first_100]. *)
Definition as_text (requirements : pyval) : str :=
  match requirements with
  | PyStr s => s
  | _ => []
  end.

(** [analyze_requirements], on the JSON body of the request when it is an
    object ([None] when it is null) whose [requirements] field, if present,
    is null, a text or an integer. *)
Definition analyze_requirements
    (business_system : option BusinessAnalysisSystem)
    (request_json : option (gmap string pyval))
    : M (response (pyobj issue) (gmap string analysis_value)) :=
  try_except
    (match business_system with
     | None =>
         jsonify []
           (Error (VStr (lit "Business analysis system not available")) 500)
     | Some system =>
         let data := default ∅ request_json in
         let requirements := default (PyStr []) (data !! "requirements") in
         if negb (truthy requirements) then
           jsonify [] (Error (VStr (lit "Requirements field is required")) 400)
         else
           shown <- lift (first_100 requirements) ;;
           logger_info (lit "Starting analysis for requirements: " ++ shown
                        ++ lit "...") ;;
           result <- process_user_input issue (crew_kickoff system)
                       (process_project_manager_output system)
                       (as_text requirements) None ;;
           logger_info (lit "Multi-agent workflow completed successfully") ;;
           if equals_text (result !! "status") (lit "error") then
             let message :=
               default (VStr (lit "Unknown error occurred"))
                 (result !! "error_message") in
             jsonify [message] (Error message 500)
           else
               let results :=
                 <["business_requirements" :=
                     AObj (default (VStr []) (result !! "business_requirements"))]>
                 (<["jira_artifacts" :=
                     AObj (default (VIssues ∅) (result !! "jira_issues_created"))]>
                 (<["technical_design" :=
                     AObj (default (VStr [])
                             (result !! "technical_documentation"))]>
                 (<["diagrams" := ADiagrams []]> ∅))) in
               let tech_content :=
                 default (VStr []) (result !! "technical_documentation") in
               let encoded :=
                 [default (VStr []) (result !! "business_requirements");
                  default (VIssues ∅) (result !! "jira_issues_created");
                  default (VStr []) (result !! "technical_documentation")] in
               if pyobj_truthy tech_content then
                 diagrams <- lift (extract_from_pyobj tech_content) ;;
                 jsonify encoded
                   (Success (<["diagrams" := ADiagrams diagrams]> results))
               else jsonify encoded (Success results)
     end)
    (fun e =>
       logger_error (lit "Error during analysis: " ++ exn_str e) ;;
       jsonify [] (Error (VStr (exn_str e)) 500)).
End Analyze.
Arguments AObj {issue} o.
Arguments ADiagrams {issue} l.
Arguments crew_kickoff {issue} _.
Arguments process_project_manager_output {issue} _.

Section LatestResults.
(** The decoded JSON values, [json.loads], and how a decoded value looks to
    [if tech_content] and to [re.findall]: falsy, a text, or something
    else. *)
Variable json : Type.
Variable json_loads : str -> result json.
Variable json_view : json -> pyval.

(** Another exception than [JSONDecodeError] that [json.loads] raises on a
    text, if there is one (a [RecursionError] on deep nesting, say): the
    [except json.JSONDecodeError] of the loop does not catch it. *)
Variable json_fault : str -> option exn.

(** The files: [os.path.exists] and [open(path).read()], which can fail. *)
Variable path_exists : str -> bool.
Variable read_file : str -> result str.

(** The values of the [results] dict of [get_latest_results]. *)
Inductive latest_value :=
| LText (s : str)
| LEmptyDict
| LJson (j : json)
| LDiagrams (l : list ExtractedDiagram).

(** [os.path.join('outputs', filename)] for a relative file name. *)
Definition outputs_path (filename : str) : str := lit "outputs/" ++ filename.

(** The content of an output file that exists and can be read. *)
Definition readable (filename : str) : option str :=
  if path_exists (outputs_path filename) then
    match read_file (outputs_path filename) with
    | Ok content => Some content
    | Raise _ => None
    end
  else None.

(** The body of the loop over the output files, with its own [try]. *)
Definition load_output (results : gmap str latest_value) (filename : str)
    : M (gmap str latest_value) :=
  try_except
    (let filepath := outputs_path filename in
     if path_exists filepath then
       content <- lift (read_file filepath) ;;
       if endswith (lit ".json") filename then
         match json_fault (clean_content content) with
         | Some e => lift (Raise e)
         | None =>
             loaded <- load_json_artifact json json_loads filename content ;;
             ret (<[replace (lit ".json") [] filename :=
                      match loaded with
                      | Parsed j => LJson j
                      | AsText s => LText s
                      end]> results)
         end
       else ret (<[replace (lit ".md") [] filename := LText content]> results)
     else ret results)
    (fun e =>
       logger_error (lit "Error loading " ++ filename ++ lit ": "
                     ++ exn_str e) ;;
       ret results).

Fixpoint load_outputs (results : gmap str latest_value) (filenames : list str)
    : M (gmap str latest_value) :=
  match filenames with
  | [] => ret results
  | filename :: rest =>
      results' <- load_output results filename ;;
      load_outputs results' rest
  end.

Definition output_files : list str :=
  [lit "business_requirements.md"; lit "jira_artifacts.json";
   lit "technical_design.md"].

Definition latest_truthy (v : latest_value) : bool :=
  match v with
  | LText [] => false
  | LText (_ :: _) => true
  | LEmptyDict => false
  | LJson j => truthy (json_view j)
  | LDiagrams [] => false
  | LDiagrams (_ :: _) => true
  end.

(** [extract_mermaid_diagrams] on an entry of [results]. *)
Definition extract_from_latest (v : latest_value)
    : result (list ExtractedDiagram) :=
  match v with
  | LText s => extract_mermaid_diagrams (PyStr s)
  | LJson j => extract_mermaid_diagrams (json_view j)
  | LEmptyDict => Ok []
  | LDiagrams [] => Ok []
  | LDiagrams (_ :: _) =>
      Raise (Exception (lit "expected string or bytes-like object"))
  end.

(** [get_latest_results] *)
Definition get_latest_results : M (response str (gmap str latest_value)) :=
  try_except
    (let results :=
       <[lit "business_requirements" := LText []]>
       (<[lit "jira_artifacts" := LEmptyDict]>
       (<[lit "technical_design" := LText []]>
       (<[lit "diagrams" := LDiagrams []]> ∅))) in
     results <- load_outputs results output_files ;;
     let tech_content :=
       default (LText []) (results !! lit "technical_design") in
     if latest_truthy tech_content then
       diagrams <- lift (extract_from_latest tech_content) ;;
       ret (Success (<[lit "diagrams" := LDiagrams diagrams]> results))
     else ret (Success results))
    (fun e =>
       logger_error (lit "Error getting latest results: " ++ exn_str e) ;;
       ret (Error (exn_str e) 500)).
End LatestResults.
Arguments LText {json} s.
Arguments LEmptyDict {json}.
Arguments LJson {json} j.
Arguments LDiagrams {json} l.

(** ** The command line of [main.py] *)

(** How the program ends before the end of [main]: [sys.exit(code)], or an
    exception that nothing catches. *)
Inductive stop :=
| Exit (code : nat)
| Uncaught (e : exn).

(** The lines still to be read from the terminal, what has been written to
    it, and the log. *)
Record console := {
  stdin : list str;
  stdout : list str;
  logged : log
}.

Definition CLI (A : Type) : Type := console -> (A + stop) * console.

Definition cli_ret {A} (a : A) : CLI A := fun c => (inl a, c).

Definition cli_bind {A B} (m : CLI A) (f : A -> CLI B) : CLI B :=
  fun c =>
    match m c with
    | (inl a, c') => f a c'
    | (inr s, c') => (inr s, c')
    end.

Notation "x <~ m ;; f" := (cli_bind m (fun x => f))
  (at level 100, m at next level, right associativity).
Notation "m ~~ f" := (cli_bind m (fun _ => f))
  (at level 100, right associativity).

(** [print(text)] *)
Definition print (text : str) : CLI unit :=
  fun c => (inl tt, {| stdin := stdin c; stdout := stdout c ++ [text];
                       logged := logged c |}).

(** [input(prompt)]: the prompt is written, one line is read; at the end of
    the input it raises [EOFError]. *)
Definition input (prompt : str) : CLI str :=
  fun c =>
    let c' := {| stdin := tail (stdin c); stdout := stdout c ++ [prompt];
                 logged := logged c |} in
    match stdin c with
    | line :: _ => (inl line, c')
    | [] => (inr (Uncaught (Exception (lit "EOF when reading a line"))), c')
    end.

(** [sys.exit(code)] *)
Definition sys_exit {A} (code : nat) : CLI A := fun c => (inr (Exit code), c).

(** A computation of the program run from the command line: its exception,
    if any, is caught by nobody. *)
Definition run {A} (m : M A) : CLI A :=
  fun c =>
    let '(r, l) := m (logged c) in
    let c' := {| stdin := stdin c; stdout := stdout c; logged := l |} in
    match r with
    | Ok a => (inl a, c')
    | Raise e => (inr (Uncaught e), c')
    end.

(** [result.status] on the dict that [process_user_input] returns: a dict has
    no such attribute. *)
Definition dict_attribute_error (name : string) : exn :=
  Exception (lit "'dict' object has no attribute '" ++ lit name ++ lit "'").

Section Main.
Variable issue : Type.

(** The pictographs that open some of the printed lines lie outside the
    characters modelled here; [glyph] gives their text by name. *)
Variable glyph : string -> str.

(** [BusinessAnalysisSystem()], which builds the agents and the crew and can
    fail, and the process environment. *)
Variable construct : result (BusinessAnalysisSystem issue).
Variable environ : gmap string str.

(** [main], up to the test [result.status == 'error'].  [process_user_input]
    always returns a dict, so that test raises [AttributeError] and the
    statements after it, which print the results, are never reached. *)
Definition main : CLI unit :=
  print (glyph "rocket" ++ lit " Business Analysis Multi-Agent System") ~~
  print (replicate 50 "="%char) ~~
  system <~ run (lift construct) ;;
  valid_environment <~ run (validate_environment environ) ;;
  (if negb valid_environment then
     print (glyph "cross"
            ++ lit " Environment validation failed. Please check your .env file.") ~~
     sys_exit 1
   else cli_ret tt) ~~
  print (glyph "check" ++ lit " Environment validated successfully") ~~
  print (nl :: glyph "memo"
         ++ lit " Please provide your business requirements:") ~~
  user_input <~ input (lit "> ") ;;
  (match strip user_input with
   | [] => print (glyph "cross" ++ lit " No input provided. Exiting.") ~~
           sys_exit 1
   | _ :: _ => cli_ret tt
   end) ~~
  key <~ input (nl :: glyph "target"
                ++ lit " Jira Project Key (optional, press Enter to skip): ") ;;
  let project_key :=
    match strip key with
    | [] => None
    | c :: k => Some (c :: k)
    end in
  print (nl :: glyph "cycle"
         ++ lit " Processing through multi-agent system...") ~~
  print (lit "This may take a few minutes..." ++ [nl]) ~~
  result <~ run (process_user_input issue (crew_kickoff system)
                   (process_project_manager_output system)
                   user_input project_key) ;;
  fun c => (inr (Uncaught (dict_attribute_error "status")), c).
End Main.

(** ** Texts with fenced diagram blocks *)

(** The text made of [gap], then for each [(body, gap')] of [blocks] the
    fenced block of [body] followed by [gap']. *)
Fixpoint fenced_text (gap : str) (blocks : list (str * str)) : str :=
  match blocks with
  | [] => gap
  | (body, gap') :: bs =>
      gap ++ fence_open ++ body ++ fence_close ++ fenced_text gap' bs
  end.

(** The blocks are well fenced: no body holds a closing fence and no text
    between the blocks holds an opening one. *)
Definition well_fenced (gap : str) (blocks : list (str * str)) : Prop :=
  contains fence_open gap = false /\
  Forall (fun bg => contains fence_close bg.1 = false /\
                    contains fence_open bg.2 = false) blocks.

(** [m] is a contiguous piece of [t]. *)
Definition part_of (m t : str) : Prop := exists a b, t = a ++ m ++ b.

(** [s] neither starts nor ends with whitespace. *)
Definition trimmed (s : str) : Prop :=
  (forall c, head s = Some c -> isspace c = false) /\
  (forall c, last s = Some c -> isspace c = false).

(** The text holds no line feed. *)
Definition single_line (s : str) : bool :=
  forallb (fun c => negb (Ascii.eqb c nl)) s.

(** No proper suffix of [w] is a prefix of [w]. *)
Definition unbordered (w : str) : Prop :=
  forall k, 0 < k < length w -> drop k w <> take (length w - k) w.

(** * Properties *)

(** ** Text *)

Lemma startswith_take w s : startswith w s = true -> take (length w) s = w.
Proof.
  revert s. induction w as [|a w IH]; intros [|b s]; simpl; try done.
  intros [Hab Hw]%andb_prop. apply Ascii.eqb_eq in Hab as ->.
  by rewrite IH.
Qed.

Lemma startswith_split w s :
  startswith w s = true -> s = w ++ drop (length w) s.
Proof.
  intros H%startswith_take.
  transitivity (take (length w) s ++ drop (length w) s);
    [symmetry; apply take_drop | by rewrite H].
Qed.

Lemma startswith_app w t : startswith w (w ++ t) = true.
Proof.
  induction w as [|a w IH]; simpl; [done|].
  by rewrite Ascii.eqb_refl, IH.
Qed.

Lemma startswith_app_long w u v :
  length w <= length u -> startswith w (u ++ v) = startswith w u.
Proof.
  revert u. induction w as [|a w IH]; intros [|b u]; simpl; try done; [lia|].
  intros Hlen. rewrite IH; [done | lia].
Qed.

Lemma startswith_overlap w u v :
  unbordered w -> 0 < length u < length w ->
  startswith w (u ++ w ++ v) = false.
Proof.
  intros Hw Hu. destruct (startswith w (u ++ w ++ v)) eqn:E; [|done].
  apply startswith_take in E. exfalso. apply (Hw (length u) Hu).
  rewrite take_app_ge in E by lia.
  rewrite take_app_le in E by lia.
  rewrite <- E at 1. by rewrite drop_app_length.
Qed.

Lemma contains_cons w c s :
  contains w (c :: s) = false ->
  startswith w (c :: s) = false /\ contains w s = false.
Proof. simpl contains. by intros ?%orb_false_elim. Qed.

(** A word that does not occur in [u] does not start inside [u] either when
    a copy of it follows [u]. *)
Lemma startswith_before w c u v :
  unbordered w -> contains w (c :: u) = false ->
  startswith w ((c :: u) ++ w ++ v) = false.
Proof.
  intros Hw [Hs _]%contains_cons.
  destruct (decide (length w <= length (c :: u))) as [Hle|Hgt].
  - by rewrite startswith_app_long.
  - apply startswith_overlap; [done|]. simpl in *. lia.
Qed.

Lemma fence_open_unbordered : unbordered fence_open.
Proof.
  intros k Hk. change (length fence_open) with 11 in *.
  do 11 (destruct k as [|k]; [first [lia | vm_compute; discriminate]|]).
  lia.
Qed.

Lemma fence_close_unbordered : unbordered fence_close.
Proof.
  intros k Hk. change (length fence_close) with 4 in *.
  do 4 (destruct k as [|k]; [first [lia | vm_compute; discriminate]|]).
  lia.
Qed.

(** ** The matcher on fenced blocks *)

Lemma lazy_any_skip {R} (k : str -> option R) b t :
  (forall j, j < length b -> k (drop j b ++ t) = None) ->
  lazy_any k (b ++ t) = lazy_any k t.
Proof.
  induction b as [|c b IH]; intros Hk; [done|].
  pose proof (Hk 0) as H0. simpl in H0. simpl. rewrite H0 by lia.
  apply IH. intros j Hj. apply (Hk (S j)). simpl. lia.
Qed.

Lemma lazy_any_hit {R} (k : str -> option R) s x :
  k s = Some x -> lazy_any k s = Some x.
Proof. intros H. destruct s; simpl; by rewrite H. Qed.

Lemma contains_drop w s j : contains w s = false -> contains w (drop j s) = false.
Proof.
  revert s. induction j as [|j IH]; intros [|c s] H; try done.
  apply contains_cons in H as [_ H]. by apply IH.
Qed.

Lemma match_at_mermaid_none s :
  startswith fence_open s = false -> match_at mermaid_pattern s = None.
Proof. intros H. unfold match_at, mermaid_pattern. cbn [exec]. by rewrite H. Qed.

Lemma match_at_mermaid_block b rest :
  contains fence_close b = false ->
  match_at mermaid_pattern (fence_open ++ b ++ fence_close ++ rest)
  = Some (b, length (fence_open ++ b ++ fence_close)).
Proof.
  intros Hb. unfold match_at, mermaid_pattern. cbn [exec].
  rewrite startswith_app, drop_app_length.
  rewrite lazy_any_skip.
  - apply lazy_any_hit.
    rewrite startswith_app, drop_app_length. cbn [default]. do 2 f_equal.
    + rewrite !length_app.
      replace (_ - _) with (length b) by lia. apply take_app_length.
    + rewrite !length_app. lia.
  - intros j Hj.
    assert (Hd : contains fence_close (drop j b) = false)
      by by apply contains_drop.
    destruct (drop j b) as [|c u] eqn:E.
    { apply (f_equal length) in E. rewrite length_drop in E. simpl in E. lia. }
    by rewrite startswith_before by (done || apply fence_close_unbordered).
Qed.

Lemma scan_skip r u s : scan r (u ++ s) (length u) = scan r s 0.
Proof. induction u as [|c u IH]; [done | exact IH]. Qed.

Lemma findall_match r w t m :
  w <> [] -> match_at r (w ++ t) = Some (m, length w) ->
  findall r (w ++ t) = m :: findall r t.
Proof.
  intros Hw H. destruct w as [|c w]; [done|].
  unfold findall. simpl app in *. cbn [scan]. rewrite H.
  f_equal. apply scan_skip.
Qed.

Lemma findall_mermaid_none g :
  contains fence_open g = false -> findall mermaid_pattern g = [].
Proof.
  unfold findall. induction g as [|c g IH]; [done|].
  intros [Hs Hg]%contains_cons. cbn [scan].
  rewrite match_at_mermaid_none by done. by apply IH.
Qed.

Lemma findall_mermaid_block g b rest :
  contains fence_open g = false -> contains fence_close b = false ->
  findall mermaid_pattern (g ++ fence_open ++ b ++ fence_close ++ rest)
  = b :: findall mermaid_pattern rest.
Proof.
  intros Hg Hb. induction g as [|c g IH].
  - rewrite app_nil_l.
    replace (fence_open ++ b ++ fence_close ++ rest)
      with ((fence_open ++ b ++ fence_close) ++ rest)
      by by rewrite <- !app_assoc.
    apply findall_match; [done|].
    rewrite <- !app_assoc. by apply match_at_mermaid_block.
  - pose proof Hg as [_ Hg']%contains_cons.
    unfold findall. rewrite <- app_comm_cons. cbn [scan].
    rewrite match_at_mermaid_none.
    + by apply IH.
    + apply (startswith_before _ c g); [apply fence_open_unbordered | done].
Qed.

Lemma findall_fenced gap blocks :
  well_fenced gap blocks ->
  findall mermaid_pattern (fenced_text gap blocks) = blocks.*1.
Proof.
  revert gap. induction blocks as [|[b g] bs IH]; intros gap [Hgap Hbs].
  - by apply findall_mermaid_none.
  - apply Forall_cons in Hbs as [[Hb Hg] Hbs]. simpl in Hb, Hg.
    cbn [fenced_text fmap list_fmap fst]. rewrite findall_mermaid_block by done.
    f_equal. by apply IH.
Qed.

(** ** What [strip] leaves *)

Lemma lstrip_spec s :
  exists l, s = l ++ lstrip s /\ forallb isspace l = true /\
            forall c, head (lstrip s) = Some c -> isspace c = false.
Proof.
  induction s as [|c s (l & Hs & Hl & Hh)].
  - by exists [].
  - simpl. destruct (isspace c) eqn:E.
    + exists (c :: l). simpl. rewrite E, Hl. by rewrite <- Hs.
    + exists []. repeat split. simpl. by intros ? [= <-].
Qed.

Lemma rstrip_spec s :
  exists r, s = rstrip s ++ r /\ forallb isspace r = true /\
            forall c, last (rstrip s) = Some c -> isspace c = false.
Proof.
  induction s as [|c s (r & Hs & Hr & Hl)].
  - by exists [].
  - simpl. destruct (rstrip s) as [|d t] eqn:Et.
    + destruct (isspace c) eqn:E.
      * exists (c :: r). simpl in *. subst s. by rewrite E, Hr.
      * exists r. simpl in *. subst s. repeat split; [done|].
        by intros ? [= <-].
    + exists r. rewrite <- app_comm_cons, <- Hs. repeat split; [done|].
      intros x Hx. apply Hl. by rewrite last_cons_cons in Hx.
Qed.

(** [strip s] is [s] without a run of whitespace at each end, and neither
    starts nor ends with whitespace. *)
Lemma strip_spec s :
  exists l r, s = l ++ strip s ++ r /\
    forallb isspace l = true /\ forallb isspace r = true /\
    (forall c, head (strip s) = Some c -> isspace c = false) /\
    (forall c, last (strip s) = Some c -> isspace c = false).
Proof.
  unfold strip.
  destruct (lstrip_spec s) as (l & Hs & Hl & Hh).
  destruct (rstrip_spec (lstrip s)) as (r & Hs' & Hr & Hla).
  exists l, r. rewrite <- Hs', <- Hs. repeat split; try done.
  intros c Hc. apply Hh. rewrite Hs'.
  by destruct (rstrip (lstrip s)); simplify_eq/=.
Qed.

(** ** Diagram extraction *)

(** On a text, [extract_mermaid_diagrams] returns one diagram per fenced
    match, with the stripped match as its code. *)
Lemma extract_mermaid_diagrams_str text :
  exists diagrams,
    extract_mermaid_diagrams (PyStr text) = Ok diagrams /\
    length diagrams = length (findall mermaid_pattern text) /\
    code <$> diagrams = strip <$> findall mermaid_pattern text.
Proof.
  destruct text as [|c t]; [by exists []|].
  eexists. split; [reflexivity|]. split; [by rewrite length_imap|].
  generalize (findall mermaid_pattern (c :: t)). intros ms.
  rewrite fmap_imap. unfold compose. simpl.
  induction ms as [|m ms IH] using rev_ind; [done|].
  by rewrite imap_app, fmap_app, IH.
Qed.

(** The clean-up loop keeps, in order, the stripped matches that are longer
    than 10 characters. *)
Lemma clean_up_filter matches :
  clean_up matches = filter (fun c : str => 10 < length c) (strip <$> matches).
Proof.
  induction matches as [|m ms IH]; [done|].
  cbn [clean_up fmap list_fmap]. rewrite filter_cons, IH.
  destruct (strip m) as [|c s] eqn:E.
  - rewrite decide_False by (simpl; lia). done.
  - destruct (10 <? length (c :: s)) eqn:L.
    + apply Nat.ltb_lt in L. by rewrite decide_True.
    + apply Nat.ltb_ge in L. rewrite decide_False by lia. done.
Qed.

Lemma _extract_mermaid_diagrams_result text l :
  (_extract_mermaid_diagrams text l).1
  = Ok (filter (fun c : str => 10 < length c)
          (strip <$> candidate_matches text)).
Proof.
  unfold _extract_mermaid_diagrams, bind, logger_info, ret. simpl.
  by rewrite clean_up_filter.
Qed.

(** On the same texts [_extract_mermaid_diagrams] returns the stripped
    bodies that are longer than 10 characters, in order and without titles. *)
Lemma _extract_mermaid_diagrams_fenced gap blocks l :
  well_fenced gap blocks -> blocks <> [] ->
  (_extract_mermaid_diagrams (fenced_text gap blocks) l).1
  = Ok (filter (fun c : str => 10 < length c) (strip <$> blocks.*1)).
Proof.
  intros Hwf Hne. rewrite _extract_mermaid_diagrams_result.
  unfold candidate_matches. rewrite findall_fenced by done.
  by destruct blocks.
Qed.

(** C4, as stated, fails for [_extract_mermaid_diagrams]: on a text with two
    well-fenced blocks, the first of five characters, it returns one string
    only, and its strings carry no title. *)
Lemma fenced_blocks_counterexample :
  let blocks := [(lit "A-->B", lit " and ");
                 (lit "graph TD; A-->B; B-->C", [])] in
  well_fenced [] blocks /\
  length blocks = 2 /\
  (_extract_mermaid_diagrams (fenced_text [] blocks) []).1
  = Ok [lit "graph TD; A-->B; B-->C"].
Proof.
  intros blocks. split; [|split; [reflexivity | by vm_compute]].
  split; [reflexivity|]. repeat constructor.
Qed.

(** C4, amended: for a text that contains N well-fenced diagram blocks,
    [extract_mermaid_diagrams] returns exactly N diagrams, in the order of
    the blocks in the text; diagram number i (from 1) is titled "Diagram i"
    and its code is the body of block i with the surrounding whitespace
    stripped.  [_extract_mermaid_diagrams] returns strings without titles:
    for N of at least 1, the stripped bodies that are longer than 10
    characters, in the order of the blocks, and for N = 0 the cleaned matches
    of its keyword patterns. *)
Theorem extract_mermaid_diagrams_fenced gap blocks :
  well_fenced gap blocks ->
  (exists diagrams,
     extract_mermaid_diagrams (PyStr (fenced_text gap blocks)) = Ok diagrams /\
     length diagrams = length blocks /\
     diagrams = imap (fun i bg => {| title := lit "Diagram " ++ dec (S i);
                                     code := strip bg.1 |}) blocks) /\
  forall l,
    (_extract_mermaid_diagrams (fenced_text gap blocks) l).1
    = Ok match blocks with
         | [] => clean_up (extend_with_patterns [] gap)
         | _ :: _ =>
             filter (fun c : str => 10 < length c) (strip <$> blocks.*1)
         end.
Proof.
  intros Hwf. split.
  - eexists. split; [|split; [|reflexivity]].
    + unfold extract_mermaid_diagrams, re_findall.
      rewrite findall_fenced by done.
      destruct (fenced_text gap blocks) as [|c t] eqn:E; cbn [truthy negb].
      * destruct blocks as [|[b g] bs]; [done|].
        apply (f_equal length) in E. simpl in E.
        rewrite !length_app in E. simpl in E. lia.
      * by rewrite imap_fmap.
    + by rewrite length_imap.
  - intros l. destruct blocks as [|bg bs].
    + rewrite _extract_mermaid_diagrams_result, clean_up_filter.
      pose proof (findall_fenced gap [] Hwf) as Hnone.
      cbn [fenced_text fmap list_fmap] in Hnone |- *.
      unfold candidate_matches. by rewrite Hnone.
    + by apply _extract_mermaid_diagrams_fenced.
Qed.

Lemma extract_mermaid_diagrams_fenced_witness :
  let gap := lit "Design:" ++ [nl] in
  let blocks := [(lit "  graph TD; A-->B ", lit " then ");
                 (lit "sequenceDiagram" ++ [nl] ++ lit "A->>B: hi", [])] in
  well_fenced gap blocks /\
  (exists diagrams,
     extract_mermaid_diagrams (PyStr (fenced_text gap blocks)) = Ok diagrams /\
     length diagrams = 2 /\
     diagrams =
       [ {| title := lit "Diagram 1"; code := lit "graph TD; A-->B" |};
         {| title := lit "Diagram 2";
            code := lit "sequenceDiagram" ++ [nl] ++ lit "A->>B: hi" |} ]) /\
  forall l,
    (_extract_mermaid_diagrams (fenced_text gap blocks) l).1
    = Ok [lit "graph TD; A-->B";
          lit "sequenceDiagram" ++ [nl] ++ lit "A->>B: hi"].
Proof.
  intros gap blocks.
  assert (Hwf : well_fenced gap blocks).
  { split; [reflexivity|]. repeat constructor. }
  split; [exact Hwf|].
  exact (extract_mermaid_diagrams_fenced gap blocks Hwf).
Defined.

(** C10: [extract_mermaid_diagrams] returns the empty list for [None] and
    for the empty text, and for every text it returns a list, one diagram
    per fenced match, and raises nothing. *)
Theorem extract_mermaid_diagrams_total :
  extract_mermaid_diagrams PyNone = Ok [] /\
  extract_mermaid_diagrams (PyStr []) = Ok [] /\
  forall text, exists diagrams,
    extract_mermaid_diagrams (PyStr text) = Ok diagrams /\
    length diagrams = length (findall mermaid_pattern text).
Proof.
  repeat split. intros text.
  destruct (extract_mermaid_diagrams_str text) as (ds & Hds & Hlen & _).
  by exists ds.
Qed.

(** C8: two calls of the extraction on the same text return identical
    lists.  The result of [_extract_mermaid_diagrams] does not depend on the
    state it runs in, and each call only appends one line to the log;
    [extract_mermaid_diagrams] touches no state at all. *)
Theorem extraction_twice_identical text l :
  let line := (INFO, lit "Extracted "
                     ++ dec (length (clean_up (candidate_matches text)))
                     ++ lit " Mermaid diagrams from text") in
  (a <- _extract_mermaid_diagrams text ;;
   b <- _extract_mermaid_diagrams text ;;
   ret (a, b)) l
  = (Ok (clean_up (candidate_matches text),
         clean_up (candidate_matches text)), l ++ [line; line]) /\
  exists diagrams,
    (a <- lift (extract_mermaid_diagrams (PyStr text)) ;;
     b <- lift (extract_mermaid_diagrams (PyStr text)) ;;
     ret (a, b)) l = (Ok (diagrams, diagrams), l).
Proof.
  split.
  - unfold _extract_mermaid_diagrams, bind, logger_info, ret.
    by rewrite <- app_assoc.
  - destruct (extract_mermaid_diagrams_str text) as (ds & Hds & _).
    exists ds.
    unfold bind, lift, ret. by rewrite Hds.
Qed.

(** C7, as stated, fails: a fenced match of exactly 10 characters is
    dropped by [_extract_mermaid_diagrams], and a match of one character is
    kept by [extract_mermaid_diagrams]. *)
Lemma length_threshold_counterexample :
  let m := lit "graph TD;A" in
  length (strip m) = 10 /\
  candidate_matches (fence_open ++ m ++ fence_close) = [m] /\
  (_extract_mermaid_diagrams (fence_open ++ m ++ fence_close) []).1 = Ok [] /\
  extract_mermaid_diagrams (PyStr (fence_open ++ lit "A" ++ fence_close))
  = Ok [ {| title := lit "Diagram 1"; code := lit "A" |} ].
Proof. vm_compute. repeat split. Qed.

(** C7, amended: [_extract_mermaid_diagrams] returns, in order, the stripped
    candidate matches that are longer than 10 characters, so it drops every
    match of at most 10 characters and keeps those of 11 or more;
    [extract_mermaid_diagrams] applies no threshold and returns the stripped
    code of every fenced match. *)
Theorem length_threshold text l :
  (_extract_mermaid_diagrams text l).1
  = Ok (filter (fun c : str => 10 < length c)
          (strip <$> candidate_matches text)) /\
  exists diagrams,
    extract_mermaid_diagrams (PyStr text) = Ok diagrams /\
    code <$> diagrams = strip <$> findall mermaid_pattern text.
Proof.
  split; [apply _extract_mermaid_diagrams_result|].
  destruct (extract_mermaid_diagrams_str text) as (ds & Hds & _ & Hcode).
  by exists ds.
Qed.

(** C9, as stated, fails: on a fenced block of five characters the API
    backend returns its code and [_extract_mermaid_diagrams] returns
    nothing; on an unfenced one-line diagram it is the other way round. *)
Lemma extractions_differ_counterexample :
  let fenced := fence_open ++ lit "A-->B" ++ fence_close in
  let bare := lit "graph TD; A-->B; B-->C" in
  code <$> [ {| title := lit "Diagram 1"; code := lit "A-->B" |} ]
    = [lit "A-->B"] /\
  extract_mermaid_diagrams (PyStr fenced)
    = Ok [ {| title := lit "Diagram 1"; code := lit "A-->B" |} ] /\
  (_extract_mermaid_diagrams fenced []).1 = Ok [] /\
  extract_mermaid_diagrams (PyStr bare) = Ok [] /\
  (_extract_mermaid_diagrams bare []).1 = Ok [bare].
Proof. vm_compute. repeat split. Qed.

Lemma strip_lstrip_fixed s :
  (forall c, head s = Some c -> isspace c = false) -> lstrip s = s.
Proof.
  destruct s as [|c s]; [done|]. intros H. simpl. by rewrite (H c).
Qed.

Lemma strip_rstrip_fixed s :
  (forall c, last s = Some c -> isspace c = false) -> rstrip s = s.
Proof.
  induction s as [|c s IH]; [done|]. intros H. simpl.
  destruct s as [|d t].
  - simpl. by rewrite (H c).
  - rewrite IH; [done|]. intros x Hx. apply H. by rewrite last_cons_cons.
Qed.

Lemma strip_idemp s : strip (strip s) = strip s.
Proof.
  destruct (strip_spec s) as (l & r & _ & _ & _ & Hh & Hl).
  unfold strip at 1. rewrite (strip_lstrip_fixed (strip s)) by done.
  by apply strip_rstrip_fixed.
Qed.

(** C9, amended: when the text has a fenced block, the list of
    [_extract_mermaid_diagrams] is the list of code strings of
    [extract_mermaid_diagrams] without the strings of at most 10
    characters; when it has none, [extract_mermaid_diagrams] returns
    nothing and [_extract_mermaid_diagrams] returns the cleaned matches of
    its keyword patterns. *)
Theorem extractions_related text l :
  exists diagrams,
    extract_mermaid_diagrams (PyStr text) = Ok diagrams /\
    (_extract_mermaid_diagrams text l).1
    = Ok match diagrams with
         | [] => clean_up (extend_with_patterns [] text)
         | _ :: _ => filter (fun c : str => 10 < length c) (code <$> diagrams)
         end.
Proof.
  destruct (extract_mermaid_diagrams_str text) as (ds & Hds & _ & Hcode).
  exists ds. split; [done|]. rewrite _extract_mermaid_diagrams_result.
  unfold candidate_matches.
  destruct (findall mermaid_pattern text) as [|m ms] eqn:E.
  - destruct ds; [|done]. by rewrite <- clean_up_filter.
  - destruct ds as [|d ds]; [done|]. by rewrite Hcode.
Qed.

(** *** The keyword patterns stop at the end of the line *)

Lemma lazy_any_first {R} (k : str -> option R) s x :
  lazy_any k s = Some x ->
  exists j, j <= length s /\ k (drop j s) = Some x /\
            forall i, i < j -> k (drop i s) = None.
Proof.
  induction s as [|c s IH]; simpl.
  - destruct (k []) eqn:E; [|done]. intros [= ->].
    exists 0. split; [done|]. split; [done|]. intros i Hi. lia.
  - destruct (k (c :: s)) eqn:E.
    + intros [= ->]. exists 0. split; [lia|]. split; [done|].
      intros i Hi. lia.
    + intros (j & Hj & Hk & Hnone)%IH. exists (S j).
      split; [lia|]. split; [done|]. intros [|i] Hi; [done|].
      apply Hnone. lia.
Qed.

(** Under [re.MULTILINE] the lookahead that ends a keyword pattern holds in
    front of every line feed. *)
Lemma diagram_end_at_newline {R} t g (k : str -> option str -> option R) :
  exec diagram_end (nl :: t) g k = k (nl :: t) g.
Proof.
  unfold diagram_end, alts. cbn [exec foldr].
  repeat (match goal with
          | |- context [startswith ?w ?s] => destruct (startswith w s)
          end; [reflexivity|]).
  reflexivity.
Qed.

Lemma diagram_end_group s' g m n (k : str -> option str -> option (str * nat)) :
  exec diagram_end s' g k = Some (m, n) -> k s' g = Some (m, n).
Proof.
  unfold diagram_end. cbn [exec].
  by destruct (exec _ s' g (fun _ _ => Some ())).
Qed.

(** The lazy part of a keyword pattern, started after the prefix [w] of the
    text, ends before the first line feed. *)
Lemma lazy_part_single_line w s2 m n :
  lazy_any
    (fun s' =>
       exec diagram_end s'
         (Some (take (length (w ++ s2) - length s') (w ++ s2)))
         (fun s'' g =>
            let n := length (w ++ s2) - length s'' in
            Some (default (take n (w ++ s2)) g, n))) s2 = Some (m, n) ->
  exists j, m = w ++ take j s2 /\ single_line (take j s2) = true.
Proof.
  intros (j & Hj & Hk & Hnone)%lazy_any_first.
  exists j. split.
  - apply diagram_end_group in Hk. cbn [default] in Hk.
    injection Hk as <- _.
    rewrite length_app, length_drop.
    replace (_ - _) with (length w + j) by lia.
    by rewrite take_app_add.
  - apply forallb_forall. intros c Hc%list_elem_of_In.
    apply list_elem_of_lookup in Hc as [i Hi].
    apply lookup_take_Some in Hi as [Hi Hlt].
    destruct (Ascii.eqb c nl) eqn:E; [|done].
    apply Ascii.eqb_eq in E as ->.
    specialize (Hnone i Hlt).
    rewrite (drop_S _ _ _ Hi), diagram_end_at_newline in Hnone. done.
Qed.

Lemma match_at_keyword_single_line kw s m n :
  single_line (lit kw) = true ->
  match_at (keyword_pattern kw) s = Some (m, n) -> single_line m = true.
Proof.
  intros Hkw. unfold match_at, keyword_pattern. cbn [exec].
  destruct (startswith (lit kw) s) eqn:E; [|done].
  apply startswith_split in E.
  remember (drop (length (lit kw)) s) as s1 eqn:Hs1. clear Hs1. subst s.
  intros (j & -> & Hj)%lazy_part_single_line.
  unfold single_line in *. by rewrite forallb_app, Hkw, Hj.
Qed.

Lemma match_at_graph_single_line s m n :
  match_at graph_pattern s = Some (m, n) -> single_line m = true.
Proof.
  unfold match_at, graph_pattern, alts. cbn [exec foldr].
  destruct (startswith (lit "graph ") s) eqn:E; [|done].
  apply startswith_split in E.
  remember (drop (length (lit "graph ")) s) as s1 eqn:Hs1. clear Hs1. subst s.
  assert (Hdir : forall d,
    single_line (lit "graph " ++ lit d) = true ->
    startswith (lit d) s1 = true ->
    lazy_any
      (fun s' =>
         exec diagram_end s'
           (Some (take (length (lit "graph " ++ s1) - length s')
                    (lit "graph " ++ s1)))
           (fun s'' g =>
              let n := length (lit "graph " ++ s1) - length s'' in
              Some (default (take n (lit "graph " ++ s1)) g, n)))
      (drop (length (lit d)) s1) = Some (m, n) ->
    single_line m = true).
  { intros d Hd Hstart%startswith_split.
    remember (drop (length (lit d)) s1) as s2 eqn:Hs2. clear Hs2. subst s1.
    rewrite app_assoc.
    intros (j & -> & Hj)%lazy_part_single_line.
    unfold single_line in *. by rewrite forallb_app, Hd, Hj. }
  repeat match goal with
  | |- context [startswith (lit ?d) s1] =>
      let Ed := fresh "Ed" in
      destruct (startswith (lit d) s1) eqn:Ed;
      [ match goal with
        | |- context [lazy_any ?k ?t] =>
            let El := fresh "El" in
            destruct (lazy_any k t) as [[m' n']|] eqn:El;
            [ intros [= <- <-]; by apply (Hdir d) | ]
        end | ]
  end; done.
Qed.

Lemma scan_match r s skip m :
  m ∈ scan r s skip -> exists t n, match_at r t = Some (m, n).
Proof.
  revert skip. induction s as [|c s IH]; intros skip; simpl.
  - by intros ?%elem_of_nil.
  - destruct skip as [|k]; [|apply IH].
    destruct (match_at r (c :: s)) as [[m' n']|] eqn:E; [|apply IH].
    intros [->|H]%elem_of_cons; [by eauto | by eapply IH].
Qed.

(** Every candidate that the keyword patterns yield lies on one line. *)
Lemma extend_with_patterns_single_line text m :
  m ∈ extend_with_patterns [] text -> single_line m = true.
Proof.
  unfold extend_with_patterns, diagram_patterns. cbn [foldl]. unfold findall.
  rewrite !elem_of_app.
  intros [[[[H%elem_of_nil|H]|H]|H]|H]; [done|..];
    apply scan_match in H as (t & n & H).
  - by eapply match_at_graph_single_line.
  - eapply match_at_keyword_single_line; [|exact H]; reflexivity.
  - eapply match_at_keyword_single_line; [|exact H]; reflexivity.
  - eapply match_at_keyword_single_line; [|exact H]; reflexivity.
Qed.

Lemma strip_single_line m : single_line m = true -> single_line (strip m) = true.
Proof.
  destruct (strip_spec m) as (l & r & Hm & _). unfold single_line.
  rewrite Hm at 1. rewrite !forallb_app.
  by intros [_ [? _]%andb_prop]%andb_prop.
Qed.

(** Without a fenced block, whatever [_extract_mermaid_diagrams] returns is a
    single line of the text: a diagram body of several lines is never
    returned whole. *)
Lemma _extract_mermaid_diagrams_fallback_single_line text l diagrams d :
  findall mermaid_pattern text = [] ->
  (_extract_mermaid_diagrams text l).1 = Ok diagrams ->
  d ∈ diagrams -> single_line d = true.
Proof.
  intros Hnone. rewrite _extract_mermaid_diagrams_result.
  unfold candidate_matches. rewrite Hnone. intros [= <-].
  intros [_ Hd]%list_elem_of_filter.
  apply list_elem_of_fmap in Hd as (m & -> & Hm).
  apply strip_single_line. by eapply extend_with_patterns_single_line.
Qed.

(** C6 fails on the code: for a keyword-prefixed diagram body of several
    lines and no fence, the fallback pattern stops at the end of the first
    line, and the one candidate it yields, "graph TD", is then dropped as too
    short: the extraction returns no diagram. *)
Lemma fallback_multiline_returns_nothing :
  let text := lit "graph TD" ++ [nl] ++ lit "    A --> B" ++ [nl]
              ++ lit "    B --> C" in
  findall mermaid_pattern text = [] /\
  candidate_matches text = [lit "graph TD"] /\
  (_extract_mermaid_diagrams text []).1 = Ok [].
Proof. vm_compute. repeat split. Qed.

(** ** The workflow *)

Lemma run_sequential_raise pre t post done outs e user_input project_key :
  run_sequential pre done user_input project_key = Ok outs ->
  t outs user_input project_key = Raise e ->
  run_sequential (pre ++ t :: post) done user_input project_key = Raise e.
Proof.
  revert done. induction pre as [|p pre IH]; intros done Hpre Ht; simpl in *.
  - injection Hpre as ->. by rewrite Ht.
  - destruct (p done user_input project_key); [by apply IH | done].
Qed.

Lemma process_user_input_raise {issue} kickoff jira user_input project_key e l :
  kickoff user_input (project_key_or_default project_key) = Raise e ->
  (process_user_input issue kickoff jira user_input project_key l).1
  = Ok (<["status" := VStr (lit "error")]>
        (<["error_message" := VStr (exn_str e)]> ∅)).
Proof.
  intros H.
  unfold process_user_input, try_except, workflow, bind, lift, logger_info.
  by rewrite H.
Qed.

(** C1, as stated, fails: when the second of three stages raises, the
    result has status "error", not "Partially-Failed", and does not carry
    the output of the first stage. *)
Lemma stage_failure_counterexample :
  let analyst : Task := fun _ _ _ =>
    Ok {| task_raw := Some (lit "Requirements"); task_str := [] |} in
  let architect : Task := fun _ _ _ =>
    Raise (Exception (lit "completion timed out")) in
  let manager : Task := fun _ _ _ =>
    Ok {| task_raw := Some (lit "{}"); task_str := [] |} in
  let run :=
    (process_user_input unit
       (sequential_kickoff [analyst; architect; manager])
       (fun _ => Ok ∅) (lit "a shop") None []).1 in
  run = Ok (<["status" := VStr (lit "error")]>
            (<["error_message" := VStr (lit "completion timed out")]> ∅)) /\
  (forall d, run = Ok d ->
     d !! "status" <> Some (VStr (lit "Partially-Failed")) /\
     d !! "business_requirements" = None).
Proof.
  intros analyst architect manager run.
  assert (Hrun : run = Ok (<["status" := VStr (lit "error")]>
            (<["error_message" := VStr (lit "completion timed out")]> ∅)))
    by reflexivity.
  split; [exact Hrun|]. intros d Hd. rewrite Hrun in Hd.
  injection Hd as <-. split; [|done].
  rewrite lookup_insert_eq. by intros [=].
Qed.

(** C1, amended: when a stage of the sequential crew raises after the
    stages before it succeeded, [process_user_input] returns a dict with
    status "error" and the message of the exception and nothing else, whatever
    the later stages are: no stage status is reported and the outputs of the
    stages that had completed are not in the result. *)
Theorem process_user_input_stage_failure {issue}
    pre stage post outs e jira user_input project_key l :
  run_sequential pre [] user_input (project_key_or_default project_key)
    = Ok outs ->
  stage outs user_input (project_key_or_default project_key) = Raise e ->
  exists d,
    (process_user_input issue (sequential_kickoff (pre ++ stage :: post))
       jira user_input project_key l).1 = Ok d /\
    d = <["status" := VStr (lit "error")]>
        (<["error_message" := VStr (exn_str e)]> ∅) /\
    forall key, key <> "status" -> key <> "error_message" -> d !! key = None.
Proof.
  intros Hpre Hstage. eexists. split; [|split; [reflexivity|]].
  - apply process_user_input_raise. unfold sequential_kickoff.
    by rewrite (run_sequential_raise _ _ _ _ _ _ _ _ Hpre Hstage).
  - intros key H1 H2. by rewrite !lookup_insert_ne.
Qed.

Lemma process_user_input_stage_failure_witness :
  let analyst : Task := fun _ _ _ =>
    Ok {| task_raw := Some (lit "Requirements"); task_str := [] |} in
  let architect : Task := fun _ _ _ =>
    Raise (Exception (lit "completion timed out")) in
  let manager : Task := fun _ _ _ =>
    Ok {| task_raw := Some (lit "{}"); task_str := [] |} in
  exists d,
    (process_user_input unit
       (sequential_kickoff ([analyst] ++ architect :: [manager]))
       (fun _ => Ok ∅) (lit "a shop") None []).1 = Ok d /\
    d = <["status" := VStr (lit "error")]>
        (<["error_message" := VStr (lit "completion timed out")]> ∅) /\
    forall key, key <> "status" -> key <> "error_message" -> d !! key = None.
Proof.
  intros analyst architect manager.
  exact (process_user_input_stage_failure (issue := unit)
           [analyst] architect [manager]
           [ {| task_raw := Some (lit "Requirements"); task_str := [] |} ]
           (Exception (lit "completion timed out"))
           (fun _ => Ok ∅) (lit "a shop") None [] eq_refl eq_refl).
Defined.

Lemma process_user_input_completed {issue} kickoff
    (jira : str -> result (gmap string (list issue)))
    user_input project_key out jira_result l :
  kickoff user_input (project_key_or_default project_key) = Ok out ->
  jira (nth_output (outputs_of out) 2) = Ok jira_result ->
  exists technical_doc diagrams,
    (process_user_input issue kickoff jira user_input project_key l).1
    = Ok (<["status" := VStr (lit "completed")]>
          (<["business_requirements" := VStr (nth_output (outputs_of out) 0)]>
          (<["jira_artifacts" :=
               VStr (lit "Created "
                     ++ dec (length (default [] (jira_result !! "epics")))
                     ++ lit " epics and "
                     ++ dec (length (default [] (jira_result !! "stories")))
                     ++ lit " stories in Jira")]>
          (<["jira_artifacts_raw" := VStr (nth_output (outputs_of out) 2)]>
          (<["jira_issues_created" := VIssues jira_result]>
          (<["technical_documentation" := VStr technical_doc]>
          (<["mermaid_diagrams" := VList diagrams]> ∅))))))).
Proof.
  intros Hk Hj. do 2 eexists.
  unfold process_user_input, try_except, workflow, bind, lift, logger_info.
  rewrite Hk, Hj. unfold _extract_mermaid_diagrams, bind, logger_info, ret.
  reflexivity.
Qed.

(** C5, as stated, fails: the summary is not taken from [created] and
    [failed] lists.  For a tool result that reports 2 created items and no
    failure under those keys the summary counts nothing, and for 2 created
    stories and no failure it reads "0 epics and 2 stories", not "2 epics and
    0 stories". *)
Lemma summary_counts_counterexample :
  let stage (text : string) : Task := fun _ _ _ =>
    Ok {| task_raw := Some (lit text); task_str := [] |} in
  let kickoff :=
    sequential_kickoff [stage "Requirements"; stage "Design"; stage "{}"] in
  let summary (tool_result : gmap string (list str)) :=
    d ← match (process_user_input str kickoff (fun _ => Ok tool_result)
                 (lit "a shop") None []).1 with
        | Ok d => Some d
        | Raise _ => None
        end;
    d !! "jira_artifacts" in
  summary (<["created" := [lit "BA-1"; lit "BA-2"]]> (<["failed" := []]> ∅))
  = Some (VStr (lit "Created 0 epics and 0 stories in Jira")) /\
  summary (<["stories" := [lit "BA-1"; lit "BA-2"]]> ∅)
  = Some (VStr (lit "Created 0 epics and 2 stories in Jira")).
Proof. split; reflexivity. Qed.

(** C5, amended: when the crew and the tracker tool both return, the
    [jira_artifacts] summary of the result is "Created E epics and S stories
    in Jira" with E and S the lengths of the lists under the keys [epics] and
    [stories] of the dict that the tracker tool returned (0 for a missing
    key), which the result carries unchanged under [jira_issues_created]; no
    [created] or [failed] list is looked at.  For 2 epics and no story it
    reads "Created 2 epics and 0 stories in Jira". *)
Theorem jira_summary_counts {issue} kickoff
    (jira : str -> result (gmap string (list issue)))
    user_input project_key out jira_result l :
  kickoff user_input (project_key_or_default project_key) = Ok out ->
  jira (nth_output (outputs_of out) 2) = Ok jira_result ->
  exists d,
    (process_user_input issue kickoff jira user_input project_key l).1 = Ok d /\
    d !! "status" = Some (VStr (lit "completed")) /\
    d !! "jira_issues_created" = Some (VIssues jira_result) /\
    d !! "jira_artifacts"
    = Some (VStr (lit "Created "
                  ++ dec (length (default [] (jira_result !! "epics")))
                  ++ lit " epics and "
                  ++ dec (length (default [] (jira_result !! "stories")))
                  ++ lit " stories in Jira")) /\
    (length (default [] (jira_result !! "epics")) = 2 ->
     length (default [] (jira_result !! "stories")) = 0 ->
     d !! "jira_artifacts"
     = Some (VStr (lit "Created 2 epics and 0 stories in Jira"))).
Proof.
  intros Hk Hj.
  destruct (process_user_input_completed kickoff jira user_input project_key
              out jira_result l Hk Hj) as (doc & ds & ->).
  eexists. split; [reflexivity|]. repeat split.
  intros -> ->. reflexivity.
Qed.

Lemma jira_summary_counts_witness :
  let stage (text : string) : Task := fun _ _ _ =>
    Ok {| task_raw := Some (lit text); task_str := [] |} in
  let kickoff :=
    sequential_kickoff [stage "Requirements"; stage "Design"; stage "{}"] in
  let created : gmap string (list str) :=
    <["epics" := [lit "BA-1"; lit "BA-2"]]> (<["stories" := []]> ∅) in
  let jira : str -> result (gmap string (list str)) := fun _ => Ok created in
  exists d,
    (process_user_input str kickoff jira (lit "a shop") None []).1 = Ok d /\
    d !! "status" = Some (VStr (lit "completed")) /\
    d !! "jira_issues_created" = Some (VIssues created) /\
    d !! "jira_artifacts"
    = Some (VStr (lit "Created 2 epics and 0 stories in Jira")) /\
    (2 = 2 -> 0 = 0 ->
     d !! "jira_artifacts"
     = Some (VStr (lit "Created 2 epics and 0 stories in Jira"))).
Proof.
  intros stage kickoff created jira.
  exact (jira_summary_counts (issue := str) kickoff jira (lit "a shop") None
           {| tasks_output :=
                Some [ {| task_raw := Some (lit "Requirements"); task_str := [] |};
                       {| task_raw := Some (lit "Design"); task_str := [] |};
                       {| task_raw := Some (lit "{}"); task_str := [] |} ];
              crew_raw := Some (lit "{}") |}
           created [] eq_refl eq_refl).
Defined.

(** ** The JSON clean-up *)

Lemma split_lines_nonempty s : split_lines s <> [].
Proof.
  destruct s as [|c s]; [done|]. simpl.
  destruct (Ascii.eqb c nl); [done|]. by destruct (split_lines s).
Qed.

Lemma join_split_lines s : join_lines (split_lines s) = s.
Proof.
  induction s as [|c s IH]; [done|]. simpl.
  destruct (Ascii.eqb c nl) eqn:E.
  - apply Ascii.eqb_eq in E as ->.
    pose proof (split_lines_nonempty s).
    simpl. destruct (split_lines s) eqn:Es; [done|]. by rewrite IH.
  - pose proof (split_lines_nonempty s).
    destruct (split_lines s) as [|x [|y ys]] eqn:Es; [done|..];
      simpl in *; by rewrite <- IH.
Qed.

Lemma split_lines_app a b :
  split_lines (a ++ nl :: b) = split_lines a ++ split_lines b.
Proof.
  induction a as [|c a IH]; [done|]. simpl.
  destruct (Ascii.eqb c nl); rewrite IH; [done|].
  pose proof (split_lines_nonempty a).
  by destruct (split_lines a).
Qed.

(** A text that is exactly one fenced JSON block is reduced to the lines
    between the fence markers. *)
Lemma clean_content_whole_block body :
  clean_content (json_fence ++ nl :: body ++ nl :: lit "```") = body.
Proof.
  set (content := json_fence ++ nl :: body ++ nl :: lit "```").
  assert (Hstrip : strip content = content).
  { unfold strip. rewrite strip_lstrip_fixed.
    - apply strip_rstrip_fixed. intros c. unfold content.
      replace (json_fence ++ nl :: body ++ nl :: lit "```")
        with ((json_fence ++ nl :: body ++ nl :: lit "``") ++ ["`"%char])
        by (rewrite <- !app_assoc; simpl; by rewrite <- !app_assoc).
      rewrite last_snoc. by intros [= <-].
    - unfold content. simpl. by intros c [= <-]. }
  assert (Hlines : split_lines content
                   = [json_fence] ++ split_lines body ++ [lit "```"]).
  { unfold content. by rewrite !split_lines_app. }
  unfold clean_content. rewrite Hstrip, Hlines.
  replace (startswith json_fence content) with true
    by (symmetry; apply startswith_app).
  rewrite bool_decide_eq_true_2 by done.
  rewrite bool_decide_eq_true_2
    by (rewrite !app_assoc; apply last_snoc).
  cbn [andb]. rewrite !length_app. cbn [length].
  replace (1 + (length (split_lines body) + 1) - 1)
    with (length ([json_fence] ++ split_lines body)) by (rewrite length_app; simpl; lia).
  rewrite app_assoc, take_app_length.
  cbn [app drop]. apply join_split_lines.
Qed.

(** C2, as stated, fails: a text that holds a fenced JSON block after a
    line of prose is handed to the parser whole, the block is not looked
    for; and when the parser rejects a text, it is the raw text that is kept
    as the result, under a "success" response, not a failure value. *)
Lemma json_extraction_counterexample :
  let content := lit "Result:" ++ [nl] ++ json_fence ++ [nl] ++ lit "[]"
                 ++ [nl] ++ lit "```" in
  let json_loads : str -> result unit := fun s =>
    if bool_decide (strip s = lit "[]") then Ok tt
    else Raise (Exception (lit "Expecting value")) in
  startswith json_fence (strip content) = false /\
  search json_pattern content = Some (lit "[]") /\
  clean_content content = content /\
  (load_json_artifact unit json_loads (lit "jira_artifacts.json") content []).1
  = Ok (AsText content).
Proof. vm_compute. repeat split. Qed.

(** C2, amended: the clean-up looks for a fence only when the trimmed text
    starts with the JSON fence marker.  A text that is exactly one fenced
    block is reduced to the lines between the markers; a text that does not
    start with the marker is handed to the parser whole.  When the parser
    rejects the text, the error and a preview of the first 200 characters
    are logged, the raw content is kept as text in the result, and nothing is
    raised. *)
Theorem json_extraction {json} (json_loads : str -> result json)
    filename content je l :
  json_loads (clean_content content) = Raise je ->
  load_json_artifact json json_loads filename content l
  = (Ok (AsText content),
     l ++ [(ERROR, lit "Error parsing JSON in " ++ filename ++ lit ": "
                   ++ exn_str je);
           (ERROR, lit "Content preview: " ++ take 200 content ++ lit "...")])
  /\
  (startswith json_fence (strip content) = false ->
   clean_content content = content) /\
  forall body,
    clean_content (json_fence ++ nl :: body ++ nl :: lit "```") = body.
Proof.
  intros Hje. split; [|split; [|apply clean_content_whole_block]].
  - unfold load_json_artifact. rewrite Hje.
    unfold bind, logger_error, ret. by rewrite <- app_assoc.
  - intros Hstart. unfold clean_content. by rewrite Hstart.
Qed.

Lemma json_extraction_witness :
  let content := lit "Sorry, I could not produce the artifacts." in
  let je := Exception (lit "Expecting value: line 1 column 1 (char 0)") in
  let json_loads : str -> result unit := fun s =>
    if bool_decide (strip s = lit "[]") then Ok tt else Raise je in
  load_json_artifact unit json_loads (lit "jira_artifacts.json") content []
  = (Ok (AsText content),
     [(ERROR, lit "Error parsing JSON in jira_artifacts.json: "
              ++ exn_str je);
      (ERROR, lit "Content preview: " ++ content ++ lit "...")])
  /\
  clean_content content = content /\
  forall body,
    clean_content (json_fence ++ nl :: body ++ nl :: lit "```") = body.
Proof.
  intros content je json_loads.
  destruct (json_extraction json_loads (lit "jira_artifacts.json") content je
              [] eq_refl) as (Hload & Hwhole & Hblock).
  split; [exact Hload|]. split; [exact (Hwhole eq_refl) | exact Hblock].
Defined.

(** ** Tracker synchronisation *)

Section SyncProperties.
Import Tracker.
Variable create_issue : str -> WorkItemDraft -> str + str.
Variable items : list WorkItemDraft.
Variable project_key : str.

Abbreviation accepted := (accepted create_issue items project_key).

Lemma foldl_sync_item xs r :
  let r' := foldl (sync_item create_issue items project_key) r xs in
  (created r').*1 = (created r).*1 ++ List.filter accepted xs /\
  (failed r').*1
  = (failed r).*1 ++ List.filter (fun i => negb (accepted i)) xs.
Proof.
  revert r. induction xs as [|x xs IH]; intros r; simpl.
  - by rewrite !app_nil_r.
  - destruct (IH (sync_item create_issue items project_key r x))
      as [Hc Hf].
    rewrite Hc, Hf. unfold sync_item, accepted.
    destruct (resolves items x); simpl;
      [destruct (create_issue project_key x); simpl|];
      rewrite ?fmap_app, <- ?app_assoc; done.
Qed.

Lemma filter_split (f : WorkItemDraft -> bool) (xs : list WorkItemDraft) :
  List.filter f xs ++ List.filter (fun i => negb (f i)) xs ≡ₚ xs.
Proof.
  induction xs as [|x xs IH]; [done|]. simpl.
  destruct (f x); simpl.
  - by rewrite IH.
  - by rewrite <- Permutation_middle, IH.
Qed.

Lemma sync_lists :
  let r := sync create_issue items project_key in
  let batch := List.filter is_epic items ++ List.filter is_story items in
  (created r).*1 = List.filter accepted batch /\
  (failed r).*1 = List.filter (fun i => negb (accepted i)) batch.
Proof. apply (foldl_sync_item _ {| created := []; failed := [] |}). Qed.

Lemma sync_partition :
  let r := sync create_issue items project_key in
  (created r).*1 ++ (failed r).*1 ≡ₚ items.
Proof.
  intros r. destruct sync_lists as [Hc Hf]. subst r.
  rewrite Hc, Hf, filter_split. apply filter_split.
Qed.

Lemma epic_resolves i : is_epic i = true -> resolves items i = true.
Proof. unfold is_epic, resolves. by destruct (kind i). Qed.
End SyncProperties.

Lemma filter_filter {A} (f g : A -> bool) (l : list A) :
  List.filter f (List.filter g l) = List.filter (fun x => g x && f x) l.
Proof.
  induction l as [|x l IH]; [done|]. simpl.
  destruct (g x); simpl; [destruct (f x)|]; by rewrite ?IH.
Qed.

Lemma foldl_sync_item_entries create_issue items project_key xs r :
  let r' := foldl (Tracker.sync_item create_issue items project_key) r xs in
  Tracker.created r'
  = Tracker.created r
    ++ omap (Tracker.created_entry create_issue items project_key) xs /\
  Tracker.failed r'
  = Tracker.failed r
    ++ omap (Tracker.failed_entry create_issue items project_key) xs.
Proof.
  revert r. induction xs as [|x xs IH]; intros r; cbn [foldl omap list_omap].
  - by rewrite !app_nil_r.
  - destruct (IH (Tracker.sync_item create_issue items project_key r x))
      as [Hc Hf].
    rewrite Hc, Hf.
    unfold Tracker.sync_item, Tracker.created_entry, Tracker.failed_entry.
    destruct (Tracker.resolves items x);
      [destruct (create_issue project_key x)|];
      cbn [Tracker.created Tracker.failed]; by rewrite <- ?app_assoc.
Qed.

(** C3: one item's failure never aborts the batch.  Whatever the tracker
    answers, [sync] goes through the epics and then the stories, and
    [created] holds exactly the resolvable items that the tracker created,
    each with its external ID, and [failed] exactly the others: an item that
    the tracker refused, with the tracker's reason, and a story whose epic key
    does not resolve; an item after a failed one is still attempted, and every
    item of the batch is in exactly one of the two lists.  For a batch of 2
    epics and 3 stories of which exactly one story refers to an epic key that
    is not in the batch, and a tracker that accepts the items, [sync] creates
    the 2 epics and then the 2 resolvable stories, and [failed] has exactly
    one entry, the unresolved story. *)
Theorem sync_partial_failure create_issue items project_key bad :
  let r := Tracker.sync create_issue items project_key in
  let batch :=
    List.filter Tracker.is_epic items ++ List.filter Tracker.is_story items in
  Tracker.created r
  = omap (Tracker.created_entry create_issue items project_key) batch /\
  Tracker.failed r
  = omap (Tracker.failed_entry create_issue items project_key) batch /\
  (forall i reason, i ∈ items -> Tracker.resolves items i = true ->
     create_issue project_key i = inl reason ->
     (i, reason) ∈ Tracker.failed r /\ i ∉ (Tracker.created r).*1) /\
  (forall i external_id, i ∈ items -> Tracker.resolves items i = true ->
     create_issue project_key i = inr external_id ->
     (i, external_id) ∈ Tracker.created r /\ i ∉ (Tracker.failed r).*1) /\
  (forall i, i ∈ items -> Tracker.resolves items i = false ->
     (i, lit "unresolved epic reference") ∈ Tracker.failed r /\
     i ∉ (Tracker.created r).*1) /\
  (Tracker.created r).*1 ++ (Tracker.failed r).*1 ≡ₚ items /\
  (length (List.filter Tracker.is_epic items) = 2 ->
   length (List.filter Tracker.is_story items) = 3 ->
   List.filter (fun i => negb (Tracker.resolves items i)) items = [bad] ->
   (forall i, i ∈ items -> Tracker.resolves items i = true ->
      exists external_id, create_issue project_key i = inr external_id) ->
   (Tracker.created r).*1
   = List.filter Tracker.is_epic items
     ++ List.filter (Tracker.resolves items)
          (List.filter Tracker.is_story items) /\
   Tracker.failed r = [(bad, lit "unresolved epic reference")] /\
   Tracker.counts r = (4, 1)).
Proof.
  intros r batch.
  assert (Hentries :
    Tracker.created r
    = omap (Tracker.created_entry create_issue items project_key) batch /\
    Tracker.failed r
    = omap (Tracker.failed_entry create_issue items project_key) batch)
    by exact (foldl_sync_item_entries create_issue items project_key batch
                {| Tracker.created := []; Tracker.failed := [] |}).
  destruct Hentries as [Hcreated Hfailed].
  destruct (sync_lists create_issue items project_key) as [Hc Hf].
  fold r in Hc, Hf. fold batch in Hc, Hf.
  assert (Hbatch : forall i, i ∈ items -> i ∈ batch).
  { intros i Hi. unfold batch. rewrite elem_of_app, !list_elem_of_In.
    rewrite !filter_In, <- !list_elem_of_In. unfold Tracker.is_story.
    destruct (Tracker.is_epic i); [left | right]; done. }
  split; [done|]. split; [done|].
  split; [|split; [|split; [|split; [apply sync_partition|]]]].
  - intros i reason Hi Hres Hrem. split.
    + rewrite Hfailed. apply list_elem_of_omap. exists i.
      split; [by apply Hbatch|].
      unfold Tracker.failed_entry. by rewrite Hres, Hrem.
    + rewrite Hc, list_elem_of_In, filter_In. intros [_ Hacc].
      unfold Tracker.accepted in Hacc. by rewrite Hres, Hrem in Hacc.
  - intros i external_id Hi Hres Hrem. split.
    + rewrite Hcreated. apply list_elem_of_omap. exists i.
      split; [by apply Hbatch|].
      unfold Tracker.created_entry. by rewrite Hres, Hrem.
    + rewrite Hf, list_elem_of_In, filter_In. intros [_ Hacc].
      unfold Tracker.accepted in Hacc. by rewrite Hres, Hrem in Hacc.
  - intros i Hi Hres. split.
    + rewrite Hfailed. apply list_elem_of_omap. exists i.
      split; [by apply Hbatch|].
      unfold Tracker.failed_entry. by rewrite Hres.
    + rewrite Hc, list_elem_of_In, filter_In. intros [_ Hacc].
      unfold Tracker.accepted in Hacc. by rewrite Hres in Hacc.
  - intros Hepics Hstories Hbad Hremote.
    assert (Hacc : forall i, In i batch ->
              Tracker.accepted create_issue items project_key i
              = Tracker.resolves items i).
    { intros i Hi. unfold Tracker.accepted.
      destruct (Tracker.resolves items i) eqn:E; [|done].
      assert (Hin : i ∈ items).
      { apply list_elem_of_In.
        apply in_app_or in Hi as [Hi|Hi]; by apply filter_In in Hi as [? _]. }
      by destruct (Hremote i Hin E) as [id ->]. }
    assert (Hunres : List.filter (fun i => negb (Tracker.resolves items i))
                       (List.filter Tracker.is_story items) = [bad]).
    { rewrite filter_filter, <- Hbad. apply filter_ext. intros i.
      unfold Tracker.is_story.
      destruct (Tracker.is_epic i) eqn:E; [|done].
      by rewrite (epic_resolves items i E). }
    assert (Hcr : (Tracker.created r).*1
       = List.filter Tracker.is_epic items
         ++ List.filter (Tracker.resolves items)
              (List.filter Tracker.is_story items)).
    { rewrite Hc, (filter_ext_in _ _ _ Hacc). unfold batch.
      rewrite List.filter_app. f_equal.
      rewrite filter_filter. apply filter_ext. intros i.
      destruct (Tracker.is_epic i) eqn:E; [|done].
      by rewrite (epic_resolves items i E). }
    assert (Hfl1 : (Tracker.failed r).*1 = [bad]).
    { rewrite Hf.
      rewrite (filter_ext_in _ (fun i => negb (Tracker.resolves items i)))
        by (intros i Hi; by rewrite Hacc).
      unfold batch. rewrite List.filter_app, Hunres.
      rewrite filter_filter.
      rewrite (filter_ext _ (fun _ => false)), filter_false; [done|].
      intros i. destruct (Tracker.is_epic i) eqn:E; [|done].
      by rewrite (epic_resolves items i E). }
    assert (Hbad_unres : Tracker.resolves items bad = false).
    { assert (Hin : In bad
                (List.filter (fun i => negb (Tracker.resolves items i)) items))
        by (rewrite Hbad; by left).
      apply filter_In in Hin as [_ Hin]. by apply negb_true_iff. }
    assert (Hfl : Tracker.failed r = [(bad, lit "unresolved epic reference")]).
    { destruct (Tracker.failed r) as [|[b reason] [|x xs]] eqn:Efl;
        try discriminate Hfl1.
      injection Hfl1 as ->. f_equal. f_equal.
      assert (Hin : (bad, reason)
                    ∈ omap (Tracker.failed_entry create_issue items
                              project_key) batch)
        by (rewrite <- Hfailed; apply list_elem_of_here).
      apply list_elem_of_omap in Hin as (i & _ & Hi).
      unfold Tracker.failed_entry in Hi.
      destruct (Tracker.resolves items i) eqn:Ei.
      - destruct (create_issue project_key i); [|done].
        injection Hi as -> _. by rewrite Hbad_unres in Ei.
      - by injection Hi as _ <-. }
    split; [done|]. split; [done|].
    unfold Tracker.counts.
    rewrite <- (length_fmap fst (Tracker.created r)), Hcr, Hfl.
    rewrite length_app, Hepics.
    pose proof (filter_length (Tracker.resolves items)
                  (List.filter Tracker.is_story items)) as Hlen.
    rewrite Hunres, Hstories in Hlen. simpl in Hlen.
    cbn [length]. f_equal. lia.
Qed.

Lemma sync_partial_failure_witness :
  let epic k := {| Tracker.kind := Tracker.Epic; Tracker.local_key := lit k;
                   Tracker.item_title := lit k; Tracker.description := [];
                   Tracker.acceptance_criteria := [];
                   Tracker.parent_key := None |} in
  let story t k := {| Tracker.kind := Tracker.Story; Tracker.local_key := [];
                      Tracker.item_title := lit t; Tracker.description := [];
                      Tracker.acceptance_criteria := [lit "done"];
                      Tracker.parent_key := Some (lit k) |} in
  let items := [epic "E1"; story "login" "E1"; epic "E2";
                story "export" "E9"; story "search" "E2"] in
  let create_issue : str -> Tracker.WorkItemDraft -> str + str :=
    fun project_key i => inr (project_key ++ lit "-" ++ Tracker.item_title i) in
  let r := Tracker.sync create_issue items (lit "BA") in
  (Tracker.created r).*1 ++ (Tracker.failed r).*1 ≡ₚ items /\
  (Tracker.created r).*1
  = [epic "E1"; epic "E2"; story "login" "E1"; story "search" "E2"] /\
  Tracker.failed r
  = [(story "export" "E9", lit "unresolved epic reference")] /\
  Tracker.counts r = (4, 1).
Proof.
  intros epic story items create_issue r.
  destruct (sync_partial_failure create_issue items (lit "BA")
              (story "export" "E9"))
    as (_ & _ & _ & _ & _ & Hperm & Hbatch).
  split; [exact Hperm|].
  apply Hbatch; [reflexivity | reflexivity | reflexivity |].
  intros i _ _. eexists. reflexivity.
Defined.

(** * Further properties of the code *)

(** ** Environment and configuration checks *)

Lemma missing_vars_filter environ :
  missing_vars environ
  = List.filter (fun var => negb (env_set environ var)) required_vars.
Proof.
  unfold missing_vars, required_vars. cbn [foldl List.filter].
  by repeat destruct (env_set environ _).
Qed.

Lemma validate_environment_run environ l :
  validate_environment environ l
  = if forallb (env_set environ) required_vars then (Ok true, l)
    else (Ok false,
          l ++ [(ERROR,
                 lit "Missing required environment variables: "
                 ++ str_join (lit ", ")
                      (lit <$> List.filter
                                 (fun var => negb (env_set environ var))
                                 required_vars))]).
Proof.
  unfold validate_environment. rewrite missing_vars_filter.
  unfold required_vars. cbn [forallb List.filter].
  by repeat destruct (env_set environ _).
Qed.

(** X1: [validate_environment] returns [True] and logs nothing when each of
    JIRA_SERVER, JIRA_USERNAME and JIRA_API_TOKEN is set to a non-empty
    value; otherwise it returns [False] after logging one error that names
    the variables that are unset or empty, in that order. *)
Theorem validate_environment_checks environ l :
  validate_environment environ l
  = if forallb (env_set environ) required_vars then (Ok true, l)
    else (Ok false,
          l ++ [(ERROR,
                 lit "Missing required environment variables: "
                 ++ str_join (lit ", ")
                      (lit <$> List.filter
                                 (fun var => negb (env_set environ var))
                                 required_vars))]).
Proof.
  unfold validate_environment. rewrite missing_vars_filter.
  unfold required_vars. cbn [forallb List.filter].
  by repeat destruct (env_set environ _).
Qed.

Lemma validate_config_Config environ :
  validate_config (Config environ)
  = Ok {| valid := forallb (env_set environ) required_keys;
          missing_keys :=
            List.filter (fun key => negb (env_set environ key)) required_keys;
          warnings :=
            match getenv environ "JIRA_SERVER" with
            | Some (c :: server) =>
                if startswith (lit "http://") (c :: server)
                   || startswith (lit "https://") (c :: server)
                then [] else [protocol_warning]
            | _ => []
            end |}.
Proof.
  unfold validate_config, required_keys, Config, env_set, getenv.
  cbn [check_required_keys forallb List.filter].
  unfold getattr.
  rewrite !lookup_insert_eq.
  rewrite (lookup_insert_ne _ "JIRA_SERVER" "JIRA_USERNAME") by done.
  rewrite lookup_insert_eq.
  rewrite !(lookup_insert_ne _ _ "JIRA_API_TOKEN") by done.
  rewrite lookup_insert_eq.
  destruct (environ !! "JIRA_SERVER") as [[|c server]|];
    destruct (environ !! "JIRA_USERNAME") as [[|? ?]|];
    destruct (environ !! "JIRA_API_TOKEN") as [[|? ?]|];
    cbn [from_option id missing_keys valid warnings app negb andb];
    try reflexivity;
    by destruct (startswith (lit "http://") (c :: server)
                 || startswith (lit "https://") (c :: server)).
Qed.


(** X2: on the configuration loaded from the environment [validate_config]
    always returns a result; [valid] is true exactly when the three
    credentials are set and not empty, [missing_keys] lists the others in
    the order JIRA_SERVER, JIRA_USERNAME, JIRA_API_TOKEN, and [valid] is true
    exactly when [missing_keys] is empty. *)
Theorem validate_config_loaded environ :
  exists r,
    validate_config (Config environ) = Ok r /\
    valid r = forallb (env_set environ) required_keys /\
    missing_keys r
    = List.filter (fun key => negb (env_set environ key)) required_keys /\
    (valid r = true <-> missing_keys r = []).
Proof.
  eexists. split; [apply validate_config_Config|].
  cbn [valid missing_keys]. split; [done|]. split; [done|].
  unfold required_keys. cbn [forallb List.filter].
  repeat destruct (env_set environ _); cbn; split; done.
Qed.

(** X3: [validate_config] warns about the protocol exactly when JIRA_SERVER
    is set, not empty and starts with neither "http://" nor "https://"; an
    unset or empty server gives no warning, and the warning has no part in
    [valid]. *)
Theorem validate_config_protocol_warning environ :
  exists r,
    validate_config (Config environ) = Ok r /\
    warnings r
    = match getenv environ "JIRA_SERVER" with
      | Some (c :: server) =>
          if startswith (lit "http://") (c :: server)
             || startswith (lit "https://") (c :: server)
          then [] else [protocol_warning]
      | _ => []
      end /\
    valid r
    = env_set environ "JIRA_SERVER" && env_set environ "JIRA_USERNAME"
      && env_set environ "JIRA_API_TOKEN".
Proof.
  eexists. split; [apply validate_config_Config|].
  cbn [valid warnings]. split; [done|].
  unfold required_keys. cbn [forallb]. by rewrite andb_true_r, andb_assoc.
Qed.

(** X4: the two checks agree: [validate_environment] returns what
    [validate_config] reports as [valid] for the configuration loaded from
    the same environment, and the variables it reports missing are the
    [missing_keys]. *)
Theorem validations_agree environ l :
  exists r,
    validate_config (Config environ) = Ok r /\
    (validate_environment environ l).1 = Ok (valid r) /\
    missing_vars environ = missing_keys r.
Proof.
  eexists. split; [apply validate_config_Config|].
  cbn [valid missing_keys]. split; [|apply missing_vars_filter].
  unfold validate_environment. rewrite missing_vars_filter.
  unfold required_vars, required_keys. cbn [forallb List.filter].
  by repeat destruct (env_set environ _).
Qed.

(** ** More on [process_user_input] *)

Lemma process_user_input_tool_raise {issue} kickoff
    (jira : str -> result (gmap string (list issue)))
    user_input project_key out e l :
  kickoff user_input (project_key_or_default project_key) = Ok out ->
  jira (nth_output (outputs_of out) 2) = Raise e ->
  (process_user_input issue kickoff jira user_input project_key l).1
  = Ok (<["status" := VStr (lit "error")]>
        (<["error_message" := VStr (exn_str e)]> ∅)).
Proof.
  intros Hk Hj.
  unfold process_user_input, try_except, workflow, bind, lift, logger_info.
  by rewrite Hk, Hj.
Qed.

(** The text that ends up as [technical_doc]: the second output, or the
    crew's [raw] when the first output is empty. *)
Lemma process_user_input_ok {issue} kickoff
    (jira : str -> result (gmap string (list issue)))
    user_input project_key out jira_result l :
  kickoff user_input (project_key_or_default project_key) = Ok out ->
  jira (nth_output (outputs_of out) 2) = Ok jira_result ->
  let technical_doc :=
    match nth_output (outputs_of out) 0, crew_raw out with
    | [], Some r => r
    | _, _ => nth_output (outputs_of out) 1
    end in
  (process_user_input issue kickoff jira user_input project_key l).1
  = Ok (<["status" := VStr (lit "completed")]>
        (<["business_requirements" := VStr (nth_output (outputs_of out) 0)]>
        (<["jira_artifacts" :=
             VStr (lit "Created "
                   ++ dec (length (default [] (jira_result !! "epics")))
                   ++ lit " epics and "
                   ++ dec (length (default [] (jira_result !! "stories")))
                   ++ lit " stories in Jira")]>
        (<["jira_artifacts_raw" := VStr (nth_output (outputs_of out) 2)]>
        (<["jira_issues_created" := VIssues jira_result]>
        (<["technical_documentation" := VStr technical_doc]>
        (<["mermaid_diagrams" :=
             VList (clean_up (candidate_matches technical_doc))]> ∅))))))).
Proof.
  intros Hk Hj technical_doc.
  unfold process_user_input, try_except, workflow, bind, lift, logger_info.
  rewrite Hk, Hj. unfold _extract_mermaid_diagrams, bind, logger_info, ret.
  reflexivity.
Qed.

(** X6: when the crew has run to the end and the tracker tool then raises,
    [process_user_input] returns only status "error" and the message of the
    exception: the requirements and the design that the crew produced are not
    in the result. *)
Theorem tracker_failure_discards_outputs {issue} kickoff
    (jira : str -> result (gmap string (list issue)))
    user_input project_key out e l :
  kickoff user_input (project_key_or_default project_key) = Ok out ->
  jira (nth_output (outputs_of out) 2) = Raise e ->
  exists d,
    (process_user_input issue kickoff jira user_input project_key l).1 = Ok d /\
    d !! "status" = Some (VStr (lit "error")) /\
    d !! "error_message" = Some (VStr (exn_str e)) /\
    d !! "business_requirements" = None /\
    d !! "technical_documentation" = None /\
    d !! "mermaid_diagrams" = None.
Proof.
  intros Hk Hj. eexists.
  split; [by apply (process_user_input_tool_raise _ _ _ _ out e)|].
  repeat split.
Qed.

Lemma tracker_failure_discards_outputs_witness :
  let stage (text : string) : Task := fun _ _ _ =>
    Ok {| task_raw := Some (lit text); task_str := [] |} in
  let kickoff :=
    sequential_kickoff [stage "Requirements"; stage "Design"; stage "{}"] in
  let jira : str -> result (gmap string (list str)) := fun _ =>
    Raise (Exception (lit "401 Unauthorized")) in
  exists d,
    (process_user_input str kickoff jira (lit "a shop") None []).1 = Ok d /\
    d !! "status" = Some (VStr (lit "error")) /\
    d !! "error_message" = Some (VStr (lit "401 Unauthorized")) /\
    d !! "business_requirements" = None /\
    d !! "technical_documentation" = None /\
    d !! "mermaid_diagrams" = None.
Proof.
  intros stage kickoff jira.
  exact (tracker_failure_discards_outputs (issue := str) kickoff jira
           (lit "a shop") None
           {| tasks_output :=
                Some [ {| task_raw := Some (lit "Requirements"); task_str := [] |};
                       {| task_raw := Some (lit "Design"); task_str := [] |};
                       {| task_raw := Some (lit "{}"); task_str := [] |} ];
              crew_raw := Some (lit "{}") |}
           (Exception (lit "401 Unauthorized")) [] eq_refl eq_refl).
Defined.

(** X7: when the text of the first task output is empty (or there is no
    task output) and the crew output has a [raw] text, that text is returned
    as the technical documentation, in place of the second task's output, and
    the diagrams are extracted from it. *)
Theorem raw_output_replaces_design {issue} kickoff
    (jira : str -> result (gmap string (list issue)))
    user_input project_key out jira_result raw l :
  kickoff user_input (project_key_or_default project_key) = Ok out ->
  jira (nth_output (outputs_of out) 2) = Ok jira_result ->
  nth_output (outputs_of out) 0 = [] ->
  crew_raw out = Some raw ->
  exists d,
    (process_user_input issue kickoff jira user_input project_key l).1 = Ok d /\
    d !! "business_requirements" = Some (VStr []) /\
    d !! "technical_documentation" = Some (VStr raw) /\
    d !! "mermaid_diagrams" = Some (VList (clean_up (candidate_matches raw))).
Proof.
  intros Hk Hj H0 Hraw. eexists.
  split; [by apply (process_user_input_ok _ _ _ _ out jira_result)|].
  rewrite H0, Hraw. repeat split.
Qed.

Lemma raw_output_replaces_design_witness :
  let out := {| tasks_output :=
                  Some [ {| task_raw := Some []; task_str := [] |};
                         {| task_raw := Some (lit "Design"); task_str := [] |} ];
                crew_raw := Some (lit "graph TD; A-->B; B-->C") |} in
  let kickoff : str -> str -> result CrewOutput := fun _ _ => Ok out in
  let jira : str -> result (gmap string (list str)) := fun _ => Ok ∅ in
  exists d,
    (process_user_input str kickoff jira (lit "a shop") None []).1 = Ok d /\
    d !! "business_requirements" = Some (VStr []) /\
    d !! "technical_documentation"
    = Some (VStr (lit "graph TD; A-->B; B-->C")) /\
    d !! "mermaid_diagrams"
    = Some (VList (clean_up (candidate_matches (lit "graph TD; A-->B; B-->C")))).
Proof.
  intros out kickoff jira.
  exact (raw_output_replaces_design (issue := str) kickoff jira
           (lit "a shop") None out ∅ (lit "graph TD; A-->B; B-->C") []
           eq_refl eq_refl eq_refl eq_refl).
Defined.

(** X8: the fields of a completed result agree with each other: the
    diagrams are those that [_extract_mermaid_diagrams] finds in the returned
    technical documentation, and the summary counts the epics and stories of
    the returned issues dict. *)
Theorem completed_result_consistent {issue} kickoff
    (jira : str -> result (gmap string (list issue)))
    user_input project_key d l :
  (process_user_input issue kickoff jira user_input project_key l).1 = Ok d ->
  d !! "status" = Some (VStr (lit "completed")) ->
  exists doc issues,
    d !! "technical_documentation" = Some (VStr doc) /\
    d !! "mermaid_diagrams"
    = Some (VList (filter (fun c : str => 10 < length c)
                     (strip <$> candidate_matches doc))) /\
    d !! "jira_issues_created" = Some (VIssues issues) /\
    d !! "jira_artifacts"
    = Some (VStr (lit "Created "
                  ++ dec (length (default [] (issues !! "epics")))
                  ++ lit " epics and "
                  ++ dec (length (default [] (issues !! "stories")))
                  ++ lit " stories in Jira")).
Proof.
  destruct (kickoff user_input (project_key_or_default project_key))
    as [out|e] eqn:Hk.
  - destruct (jira (nth_output (outputs_of out) 2)) as [jr|e] eqn:Hj.
    + rewrite (process_user_input_ok _ _ _ _ out jr l Hk Hj).
      intros [= <-] _. do 2 eexists. rewrite <- clean_up_filter.
      repeat split.
    + rewrite (process_user_input_tool_raise _ _ _ _ out e l Hk Hj).
      intros [= <-]. rewrite lookup_insert_eq. by intros [=].
  - rewrite (process_user_input_raise _ _ _ _ e l Hk).
    intros [= <-]. rewrite lookup_insert_eq. by intros [=].
Qed.

Lemma completed_result_consistent_witness :
  let stage (text : string) : Task := fun _ _ _ =>
    Ok {| task_raw := Some (lit text); task_str := [] |} in
  let kickoff :=
    sequential_kickoff [stage "Requirements"; stage "Design"; stage "{}"] in
  let jira : str -> result (gmap string (list str)) := fun _ =>
    Ok (<["epics" := [lit "BA-1"]]> ∅) in
  exists d,
    (process_user_input str kickoff jira (lit "a shop") None []).1 = Ok d /\
    exists doc issues,
      d !! "technical_documentation" = Some (VStr doc) /\
      d !! "mermaid_diagrams"
      = Some (VList (filter (fun c : str => 10 < length c)
                       (strip <$> candidate_matches doc))) /\
      d !! "jira_issues_created" = Some (VIssues issues) /\
      d !! "jira_artifacts"
      = Some (VStr (lit "Created "
                    ++ dec (length (default [] (issues !! "epics")))
                    ++ lit " epics and "
                    ++ dec (length (default [] (issues !! "stories")))
                    ++ lit " stories in Jira")).
Proof.
  intros stage kickoff jira. eexists. split; [reflexivity|].
  exact (completed_result_consistent (issue := str) kickoff jira
           (lit "a shop") None _ [] eq_refl eq_refl).
Defined.

(** ** [analyze_requirements] *)

Lemma run_fst {A} (m : M A) l a : (m l).1 = Ok a -> m l = (Ok a, (m l).2).
Proof. destruct (m l) as [r l']. simpl. by intros ->. Qed.

(** The handler once the request has passed its checks: what it does with
    the dict that the workflow returned. *)
Lemma analyze_requirements_run {issue} jsonify_fault
    (system : BusinessAnalysisSystem issue) request_json c s result l :
  default (PyStr []) (default ∅ request_json !! "requirements")
  = PyStr (c :: s) ->
  (process_user_input issue (crew_kickoff system)
     (process_project_manager_output system) (c :: s) None
     (l ++ [(INFO, lit "Starting analysis for requirements: "
                   ++ take 100 (c :: s) ++ lit "...")])).1 = Ok result ->
  exists l',
    analyze_requirements issue jsonify_fault (Some system) request_json l
    = try_except
        (if equals_text issue (result !! "status") (lit "error") then
           let message :=
             default (VStr (lit "Unknown error occurred"))
               (result !! "error_message") in
           jsonify issue jsonify_fault [message] (Error message 500)
         else
           let results :=
             <["business_requirements" :=
                 AObj (default (VStr []) (result !! "business_requirements"))]>
             (<["jira_artifacts" :=
                 AObj (default (VIssues ∅) (result !! "jira_issues_created"))]>
             (<["technical_design" :=
                 AObj (default (VStr [])
                         (result !! "technical_documentation"))]>
             (<["diagrams" := ADiagrams []]> ∅))) in
           let tech_content :=
             default (VStr []) (result !! "technical_documentation") in
           let encoded :=
             [default (VStr []) (result !! "business_requirements");
              default (VIssues ∅) (result !! "jira_issues_created");
              default (VStr []) (result !! "technical_documentation")] in
           if pyobj_truthy issue tech_content then
             diagrams <- lift (extract_from_pyobj issue tech_content) ;;
             jsonify issue jsonify_fault encoded
               (Success (<["diagrams" := ADiagrams diagrams]> results))
           else jsonify issue jsonify_fault encoded (Success results))
        (fun e =>
           logger_error (lit "Error during analysis: " ++ exn_str e) ;;
           jsonify issue jsonify_fault [] (Error (VStr (exn_str e)) 500))
        (l' ++ [(INFO, lit "Multi-agent workflow completed successfully")]).
Proof.
  intros Hreq Hrun. apply run_fst in Hrun.
  eexists.
  unfold analyze_requirements.
  cbv zeta. rewrite Hreq. cbn [truthy negb first_100 as_text].
  unfold try_except at 1.
  unfold bind at 1, lift at 1. unfold bind at 1, logger_info at 1.
  unfold bind at 1. rewrite Hrun.
  unfold bind at 1, logger_info at 1.
  reflexivity.
Qed.

(** The handler when the crew and the tracker tool have returned: the
    response is the success body, unless [jsonify] fails on the tool's
    dict. *)
Lemma analyze_requirements_completed {issue} jsonify_fault
    (system : BusinessAnalysisSystem issue) request_json c s out jira_result l :
  default (PyStr []) (default ∅ request_json !! "requirements")
  = PyStr (c :: s) ->
  crew_kickoff system (c :: s) (lit "DEFAULT") = Ok out ->
  process_project_manager_output system (nth_output (outputs_of out) 2)
  = Ok jira_result ->
  let doc :=
    match nth_output (outputs_of out) 0, crew_raw out with
    | [], Some r => r
    | _, _ => nth_output (outputs_of out) 1
    end in
  exists diagrams,
    extract_mermaid_diagrams (PyStr doc) = Ok diagrams /\
    (analyze_requirements issue jsonify_fault (Some system) request_json l).1
    = Ok match jsonify_fault jira_result with
         | Some e => Error (VStr (exn_str e)) 500
         | None =>
             Success
               (<["diagrams" := ADiagrams diagrams]>
                (<["business_requirements" :=
                     AObj (VStr (nth_output (outputs_of out) 0))]>
                (<["jira_artifacts" := AObj (VIssues jira_result)]>
                (<["technical_design" := AObj (VStr doc)]>
                (<["diagrams" := ADiagrams []]> ∅)))))
         end.
Proof.
  intros Hreq Hk Hj doc.
  destruct (analyze_requirements_run jsonify_fault system request_json c s _ l
              Hreq (process_user_input_ok _ _ _ None out jira_result _ Hk Hj))
    as [l' ->].
  fold doc.
  destruct (extract_mermaid_diagrams_str doc) as (ds & Hds & _).
  exists ds. split; [done|].
  unfold equals_text. rewrite lookup_insert_eq.
  rewrite bool_decide_eq_false_2 by done.
  cbv zeta.
  rewrite !(lookup_insert_ne _ "status") by done.
  rewrite !lookup_insert_eq.
  rewrite !(lookup_insert_ne _ "business_requirements") by done.
  rewrite !(lookup_insert_ne _ "jira_artifacts") by done.
  rewrite !(lookup_insert_ne _ "jira_artifacts_raw") by done.
  rewrite !lookup_insert_eq.
  rewrite !(lookup_insert_ne _ "jira_issues_created") by done.
  rewrite !lookup_insert_eq.
  cbn [default from_option id].
  unfold jsonify. cbn [omap list_omap pyobj_fault].
  destruct doc as [|d0 doc'] eqn:Edoc.
  - cbn [pyobj_truthy]. injection Hds as <-.
    destruct (jsonify_fault jira_result) as [e|].
    + reflexivity.
    + unfold try_except, ret. cbn [fst]. do 2 f_equal.
  - cbn [pyobj_truthy extract_from_pyobj]. rewrite Hds.
    destruct (jsonify_fault jira_result) as [e|]; reflexivity.
Qed.

(** X9: what [analyze_requirements] answers before it runs anything, for a
    request whose JSON body is an object or null and whose [requirements]
    field, if present, is null, a text or an integer.  Without a system the
    answer is 500, "Business analysis system not available", whatever the
    request.  With a system it is 400, "Requirements field is required", when
    the field is missing, null, the empty text or 0, and nothing is logged;
    for another integer it is 500 with the [TypeError] of
    [requirements[:100]], which is logged as an error. *)
Theorem analyze_requirements_validation {issue} jsonify_fault request_json l :
  let requirements :=
    default (PyStr []) (default ∅ request_json !! "requirements") in
  analyze_requirements issue jsonify_fault None request_json l
  = (Ok (Error (VStr (lit "Business analysis system not available")) 500), l)
  /\
  forall system : BusinessAnalysisSystem issue,
    (truthy requirements = false ->
     analyze_requirements issue jsonify_fault (Some system) request_json l
     = (Ok (Error (VStr (lit "Requirements field is required")) 400), l)) /\
    (forall n, requirements = PyInt n -> n <> 0%Z ->
     analyze_requirements issue jsonify_fault (Some system) request_json l
     = (Ok (Error (VStr (lit "'int' object is not subscriptable")) 500),
        l ++ [(ERROR, lit "Error during analysis: "
                      ++ lit "'int' object is not subscriptable")])).
Proof.
  intros requirements. split; [reflexivity|].
  intros system. split.
  - intros Hfalsy. unfold analyze_requirements, try_except. cbv zeta.
    fold requirements. by rewrite Hfalsy.
  - intros n Hreq Hn. unfold analyze_requirements, try_except. cbv zeta.
    fold requirements. rewrite Hreq. cbn [truthy].
    destruct (n =? 0)%Z eqn:En; [lia|]. reflexivity.
Qed.

Lemma analyze_requirements_validation_witness :
  let system : BusinessAnalysisSystem str :=
    {| crew_kickoff := fun _ _ => Raise (Exception []);
       process_project_manager_output := fun _ => Ok ∅ |} in
  let no_fault : gmap string (list str) -> option exn := fun _ => None in
  analyze_requirements str no_fault (Some system) None []
  = (Ok (Error (VStr (lit "Requirements field is required")) 400), []) /\
  analyze_requirements str no_fault (Some system)
    (Some (<["requirements" := PyInt 7]> ∅)) []
  = (Ok (Error (VStr (lit "'int' object is not subscriptable")) 500),
     [(ERROR, lit "Error during analysis: 'int' object is not subscriptable")]).
Proof.
  intros system no_fault. split.
  - destruct (analyze_requirements_validation (issue := str) no_fault None [])
      as [_ H].
    destruct (H system) as [H400 _]. exact (H400 eq_refl).
  - destruct (analyze_requirements_validation (issue := str) no_fault
                (Some (<["requirements" := PyInt 7]> ∅)) []) as [_ H].
    destruct (H system) as [_ H500]. apply (H500 7%Z); [reflexivity | lia].
Defined.

(** X10: when the crew and the tracker tool return and [jsonify] can encode
    the tool's dict, the response carries the first task's text as
    [business_requirements], the returned technical documentation as
    [technical_design], the issues dict of the tracker tool (not the summary
    line) as [jira_artifacts], and as [diagrams] the titled fenced blocks of
    the technical documentation: one per fenced match, whatever
    [process_user_input] itself found by keywords.  When [jsonify] fails on
    the tool's dict, the answer is 500 with the text of its exception. *)
Theorem analyze_requirements_success {issue} jsonify_fault
    (system : BusinessAnalysisSystem issue) request_json c s out jira_result l :
  default (PyStr []) (default ∅ request_json !! "requirements")
  = PyStr (c :: s) ->
  crew_kickoff system (c :: s) (lit "DEFAULT") = Ok out ->
  process_project_manager_output system (nth_output (outputs_of out) 2)
  = Ok jira_result ->
  let doc :=
    match nth_output (outputs_of out) 0, crew_raw out with
    | [], Some r => r
    | _, _ => nth_output (outputs_of out) 1
    end in
  (jsonify_fault jira_result = None ->
   exists results diagrams,
     (analyze_requirements issue jsonify_fault (Some system) request_json l).1
     = Ok (Success results) /\
     results !! "business_requirements"
     = Some (AObj (VStr (nth_output (outputs_of out) 0))) /\
     results !! "technical_design" = Some (AObj (VStr doc)) /\
     results !! "jira_artifacts" = Some (AObj (VIssues jira_result)) /\
     results !! "diagrams" = Some (ADiagrams diagrams) /\
     length diagrams = length (findall mermaid_pattern doc) /\
     code <$> diagrams = strip <$> findall mermaid_pattern doc) /\
  (forall e, jsonify_fault jira_result = Some e ->
   (analyze_requirements issue jsonify_fault (Some system) request_json l).1
   = Ok (Error (VStr (exn_str e)) 500)).
Proof.
  intros Hreq Hk Hj doc.
  destruct (analyze_requirements_completed jsonify_fault system request_json
              c s out jira_result l Hreq Hk Hj) as (ds & Hds & ->).
  fold doc in Hds |- *.
  destruct (extract_mermaid_diagrams_str doc) as (ds' & Hds' & Hlen & Hcode).
  rewrite Hds in Hds'. injection Hds' as <-.
  split.
  - intros ->. do 2 eexists. split; [reflexivity|]. by repeat split.
  - by intros e ->.
Qed.

Lemma analyze_requirements_success_witness :
  let stage (text : str) : Task := fun _ _ _ =>
    Ok {| task_raw := Some text; task_str := [] |} in
  let design := lit "graph TD; A-->B; B-->C" in
  let system (issues : gmap string (list str)) :=
    {| crew_kickoff :=
         sequential_kickoff [stage (lit "Requirements"); stage design;
                             stage (lit "{}")];
       process_project_manager_output := fun _ => Ok issues |} in
  let fault (d : gmap string (list str)) :=
    match d !! "handles" with
    | Some _ =>
        Some (Exception (lit "Object of type Issue is not JSON serializable"))
    | None => None
    end in
  let request := Some (<["requirements" := PyStr (lit "a shop")]> ∅) in
  (exists results diagrams,
     (analyze_requirements str fault
        (Some (system (<["epics" := [lit "BA-1"]]> ∅))) request []).1
     = Ok (Success results) /\
     results !! "business_requirements"
     = Some (AObj (VStr (lit "Requirements"))) /\
     results !! "technical_design" = Some (AObj (VStr design)) /\
     results !! "jira_artifacts"
     = Some (AObj (VIssues (<["epics" := [lit "BA-1"]]> ∅))) /\
     results !! "diagrams" = Some (ADiagrams diagrams) /\
     length diagrams = 0 /\
     code <$> diagrams = []) /\
  (analyze_requirements str fault
     (Some (system (<["handles" := [lit "BA-1"]]> ∅))) request []).1
  = Ok (Error
          (VStr (lit "Object of type Issue is not JSON serializable")) 500).
Proof.
  intros stage design system fault request.
  pose (out :=
    {| tasks_output :=
         Some [ {| task_raw := Some (lit "Requirements"); task_str := [] |};
                {| task_raw := Some design; task_str := [] |};
                {| task_raw := Some (lit "{}"); task_str := [] |} ];
       crew_raw := Some (lit "{}") |}).
  split.
  - destruct (analyze_requirements_success (issue := str) fault
                (system (<["epics" := [lit "BA-1"]]> ∅)) request
                "a"%char (lit " shop") out (<["epics" := [lit "BA-1"]]> ∅) []
                eq_refl eq_refl eq_refl) as [H _].
    exact (H eq_refl).
  - destruct (analyze_requirements_success (issue := str) fault
                (system (<["handles" := [lit "BA-1"]]> ∅)) request
                "a"%char (lit " shop") out (<["handles" := [lit "BA-1"]]> ∅) []
                eq_refl eq_refl eq_refl) as [_ H].
    exact (H _ eq_refl).
Defined.

(** X11: when the crew raises, [analyze_requirements] answers 500 with the
    text of the exception as [error]; the log then holds the workflow's
    error line followed by the handler's "completed successfully" line, which
    is written before the status of the result is looked at. *)
Theorem analyze_requirements_workflow_error {issue} jsonify_fault
    (system : BusinessAnalysisSystem issue) request_json c s e l :
  default (PyStr []) (default ∅ request_json !! "requirements")
  = PyStr (c :: s) ->
  crew_kickoff system (c :: s) (lit "DEFAULT") = Raise e ->
  analyze_requirements issue jsonify_fault (Some system) request_json l
  = (Ok (Error (VStr (exn_str e)) 500),
     l ++ [(INFO, lit "Starting analysis for requirements: "
                  ++ take 100 (c :: s) ++ lit "...");
           (INFO, lit "Processing user input: " ++ take 100 (c :: s)
                  ++ lit "...");
           (INFO, lit "Starting multi-agent workflow...");
           (ERROR, lit "Workflow execution error: " ++ exn_str e);
           (INFO, lit "Multi-agent workflow completed successfully")]).
Proof.
  intros Hreq Hk.
  unfold analyze_requirements. cbv zeta. rewrite Hreq.
  cbn [truthy negb first_100 as_text].
  unfold try_except at 1.
  unfold bind at 1, lift at 1. unfold bind at 1, logger_info at 1.
  unfold bind at 1.
  unfold process_user_input, try_except, workflow, bind, lift, logger_info,
    logger_error, ret.
  cbn [project_key_or_default]. rewrite Hk.
  unfold equals_text. rewrite lookup_insert_eq.
  rewrite bool_decide_eq_true_2 by done.
  rewrite lookup_insert_ne by done. rewrite lookup_insert_eq.
  cbn [default from_option id]. f_equal.
  by rewrite <- !app_assoc.
Qed.

Lemma analyze_requirements_workflow_error_witness :
  let system : BusinessAnalysisSystem str :=
    {| crew_kickoff := fun _ _ =>
         Raise (Exception (lit "completion timed out"));
       process_project_manager_output := fun _ => Ok ∅ |} in
  let request := Some (<["requirements" := PyStr (lit "a shop")]> ∅) in
  analyze_requirements str (fun _ => None) (Some system) request []
  = (Ok (Error (VStr (lit "completion timed out")) 500),
     [(INFO, lit "Starting analysis for requirements: a shop...");
      (INFO, lit "Processing user input: a shop...");
      (INFO, lit "Starting multi-agent workflow...");
      (ERROR, lit "Workflow execution error: completion timed out");
      (INFO, lit "Multi-agent workflow completed successfully")]).
Proof.
  intros system request.
  exact (analyze_requirements_workflow_error (issue := str) (fun _ => None)
           system request
           "a"%char (lit " shop") (Exception (lit "completion timed out")) []
           eq_refl eq_refl).
Defined.

(** ** [get_latest_results] *)

Lemma load_output_run {json} (json_loads : str -> result json) json_fault
    path_exists read_file results filename l :
  exists l',
    load_output json json_loads json_fault path_exists read_file results
      filename l
    = (Ok match readable path_exists read_file filename with
          | None => results
          | Some content =>
              if endswith (lit ".json") filename then
                match json_fault (clean_content content) with
                | Some _ => results
                | None =>
                    <[replace (lit ".json") [] filename :=
                        match json_loads (clean_content content) with
                        | Ok j => LJson j
                        | Raise _ => LText content
                        end]> results
                end
              else <[replace (lit ".md") [] filename := LText content]> results
          end, l').
Proof.
  unfold load_output, readable, try_except, bind, lift, load_json_artifact.
  destruct (path_exists (outputs_path filename)); [|by eexists].
  destruct (read_file (outputs_path filename)) as [content|e];
    [|by eexists].
  destruct (endswith (lit ".json") filename); [|by eexists].
  destruct (json_fault (clean_content content)); [by eexists|].
  destruct (json_loads (clean_content content)); by eexists.
Qed.

Lemma get_latest_results_run {json} (json_loads : str -> result json)
    json_view json_fault path_exists read_file l :
  let text f := default [] (readable path_exists read_file (lit f)) in
  exists diagrams,
    extract_mermaid_diagrams (PyStr (text "technical_design.md"))
    = Ok diagrams /\
    (get_latest_results json json_loads json_view json_fault path_exists
       read_file l).1
    = Ok (Success
            (<[lit "business_requirements" :=
                 LText (text "business_requirements.md")]>
             (<[lit "jira_artifacts" :=
                  match readable path_exists read_file
                          (lit "jira_artifacts.json") with
                  | None => LEmptyDict
                  | Some content =>
                      match json_fault (clean_content content) with
                      | Some _ => LEmptyDict
                      | None =>
                          match json_loads (clean_content content) with
                          | Ok j => LJson j
                          | Raise _ => LText content
                          end
                      end
                  end]>
             (<[lit "technical_design" := LText (text "technical_design.md")]>
             (<[lit "diagrams" := LDiagrams diagrams]> ∅))))).
Proof.
  intros text.
  destruct (extract_mermaid_diagrams_str (text "technical_design.md"))
    as (ds & Hds & _).
  exists ds. split; [done|].
  unfold get_latest_results, output_files, try_except. cbv zeta.
  cbn [load_outputs]. unfold bind at 1. unfold bind at 1.
  destruct (load_output_run json_loads json_fault path_exists read_file
              (<[lit "business_requirements" := LText []]>
               (<[lit "jira_artifacts" := LEmptyDict]>
               (<[lit "technical_design" := LText []]>
               (<[lit "diagrams" := LDiagrams []]> ∅))))
              (lit "business_requirements.md") l) as [l1 ->].
  unfold bind at 1.
  match goal with
  | |- context [load_output _ _ _ _ _ ?r (lit "jira_artifacts.json") l1] =>
      destruct (load_output_run json_loads json_fault path_exists read_file r
                  (lit "jira_artifacts.json") l1) as [l2 ->]
  end.
  unfold bind at 1.
  match goal with
  | |- context [load_output _ _ _ _ _ ?r (lit "technical_design.md") l2] =>
      destruct (load_output_run json_loads json_fault path_exists read_file r
                  (lit "technical_design.md") l2) as [l3 ->]
  end.
  change (endswith (lit ".json") (lit "business_requirements.md")) with false.
  change (endswith (lit ".json") (lit "jira_artifacts.json")) with true.
  change (endswith (lit ".json") (lit "technical_design.md")) with false.
  change (replace (lit ".md") [] (lit "business_requirements.md"))
    with (lit "business_requirements").
  change (replace (lit ".json") [] (lit "jira_artifacts.json"))
    with (lit "jira_artifacts").
  change (replace (lit ".md") [] (lit "technical_design.md"))
    with (lit "technical_design").
  cbv iota. subst text. cbv beta in Hds |- *.
  destruct (readable path_exists read_file (lit "business_requirements.md"))
    as [br|];
    destruct (readable path_exists read_file (lit "jira_artifacts.json"))
      as [ja|];
    destruct (readable path_exists read_file (lit "technical_design.md"))
      as [[|c td]|];
    try destruct (json_fault (clean_content ja));
    try destruct (json_loads (clean_content ja));
    cbn [default from_option id] in Hds |- *;
    unfold ret at 1;
    rewrite ?lookup_insert_eq;
    rewrite ?(lookup_insert_ne _ (lit "business_requirements")) by done;
    rewrite ?(lookup_insert_ne _ (lit "jira_artifacts")) by done;
    rewrite ?lookup_insert_eq;
    cbn [default from_option id latest_truthy extract_from_latest];
    unfold bind, lift, ret; rewrite ?Hds; cbn [fst];
    try (injection Hds as <-);
    do 2 f_equal; apply map_eq; intros k;
    repeat (rewrite lookup_insert; case_decide; [done|]); done.
Qed.

(** X12: [get_latest_results] always answers with a success response,
    whatever the state of the output files (missing, unreadable, malformed
    JSON): no failure of a file reaches the handler's own [except], and the
    response holds exactly the four entries it started with. *)
Theorem get_latest_results_never_fails {json} (json_loads : str -> result json)
    json_view json_fault path_exists read_file l :
  exists results,
    (get_latest_results json json_loads json_view json_fault path_exists
       read_file l).1
    = Ok (Success results) /\
    status_code (Success (E := str) results) = 200 /\
    forall key,
      is_Some (results !! key) <->
      key ∈ [lit "business_requirements"; lit "jira_artifacts";
             lit "technical_design"; lit "diagrams"].
Proof.
  destruct (get_latest_results_run json_loads json_view json_fault path_exists
              read_file l) as (ds & _ & ->).
  eexists. split; [reflexivity|]. split; [reflexivity|].
  intros key. rewrite !elem_of_cons, elem_of_nil.
  rewrite !lookup_insert_is_Some, lookup_empty, is_Some_alt.
  split.
  - intros [->|[_ [->|[_ [->|[_ [->|[_ []]]]]]]]]; auto.
  - intros [->|[->|[->|[->|[]]]]]; [by left| | |];
      right; (split; [done|]); [by left| |];
      right; (split; [done|]); [by left|];
      right; (split; [done|]); by left.
Qed.

(** X13: each output file decides its own entry only.  The two Markdown
    entries are the content of their file, or the empty text when the file is
    missing or cannot be read.  [jira_artifacts] is the empty dict when the
    file is missing or cannot be read, and also when [json.loads] raises
    something else than a [JSONDecodeError], which only the [except] of the
    file catches; it is the raw content on a [JSONDecodeError], and the
    decoded JSON otherwise. *)
Theorem get_latest_results_entries {json} (json_loads : str -> result json)
    json_view json_fault path_exists read_file l :
  exists results,
    (get_latest_results json json_loads json_view json_fault path_exists
       read_file l).1
    = Ok (Success results) /\
    results !! lit "business_requirements"
    = Some (LText (default [] (readable path_exists read_file
                                 (lit "business_requirements.md")))) /\
    results !! lit "technical_design"
    = Some (LText (default [] (readable path_exists read_file
                                 (lit "technical_design.md")))) /\
    results !! lit "jira_artifacts"
    = Some match readable path_exists read_file (lit "jira_artifacts.json")
           with
           | None => LEmptyDict
           | Some content =>
               match json_fault (clean_content content) with
               | Some _ => LEmptyDict
               | None =>
                   match json_loads (clean_content content) with
                   | Ok j => LJson j
                   | Raise _ => LText content
                   end
               end
           end.
Proof.
  destruct (get_latest_results_run json_loads json_view json_fault path_exists
              read_file l) as (ds & _ & ->).
  eexists. split; [reflexivity|].
  rewrite lookup_insert_eq.
  rewrite !(lookup_insert_ne _ (lit "business_requirements")) by done.
  rewrite (lookup_insert_ne _ (lit "jira_artifacts") (lit "technical_design"))
    by done.
  by rewrite !lookup_insert_eq.
Qed.

(** X14: the diagrams of [get_latest_results] are the titled fenced blocks of
    technical_design.md, one per fenced match, and nothing when that file is
    missing or cannot be read; the other two files have no part in them. *)
Theorem get_latest_results_diagrams {json} (json_loads : str -> result json)
    json_view json_fault path_exists read_file l :
  let design :=
    default [] (readable path_exists read_file (lit "technical_design.md")) in
  exists results diagrams,
    (get_latest_results json json_loads json_view json_fault path_exists
       read_file l).1
    = Ok (Success results) /\
    results !! lit "diagrams" = Some (LDiagrams diagrams) /\
    extract_mermaid_diagrams (PyStr design) = Ok diagrams /\
    length diagrams = length (findall mermaid_pattern design) /\
    code <$> diagrams = strip <$> findall mermaid_pattern design.
Proof.
  intros design.
  destruct (get_latest_results_run json_loads json_view json_fault path_exists
              read_file l) as (ds & Hds & ->).
  fold design in Hds.
  destruct (extract_mermaid_diagrams_str design) as (ds' & Hds' & Hlen & Hcode).
  rewrite Hds in Hds'. injection Hds' as <-.
  eexists. exists ds. split; [reflexivity|].
  rewrite !(lookup_insert_ne _ _ (lit "diagrams")) by done.
  by rewrite lookup_insert_eq.
Qed.

(** ** Extraction returns pieces of the text *)

Lemma part_of_refl t : part_of t t.
Proof. exists [], []. by rewrite app_nil_r. Qed.

Lemma part_of_take n t : part_of (take n t) t.
Proof. exists [], (drop n t). by rewrite take_drop. Qed.

Lemma part_of_suffix m s t : s `suffix_of` t -> part_of m s -> part_of m t.
Proof.
  intros [k ->] (a & b & ->). exists (k ++ a), b. by rewrite <- app_assoc.
Qed.

Lemma part_of_trans m s t : part_of m s -> part_of s t -> part_of m t.
Proof.
  intros (a & b & ->) (a' & b' & ->). exists (a' ++ a), (b ++ b').
  by rewrite <- !app_assoc.
Qed.

Lemma greedy_space_first {R} (k : str -> option R) s x :
  greedy_space k s = Some x -> exists j, k (drop j s) = Some x.
Proof.
  induction s as [|c s IH]; simpl.
  - intros H. by exists 0.
  - destruct (isspace c); [|intros H; by exists 0].
    destruct (greedy_space k s) as [y|] eqn:E.
    + intros [= ->]. destruct (IH eq_refl) as [j Hj]. by exists (S j).
    + intros H. by exists 0.
Qed.

(** The matcher hands its continuation a suffix of the text, and a capture
    group that is the one it was given or a piece of the text. *)
Lemma exec_sound r : forall {R} s g (k : str -> option str -> option R) x,
  exec r s g k = Some x ->
  exists s' g', k s' g' = Some x /\ s' `suffix_of` s /\
    (g' = g \/ exists m, g' = Some m /\ part_of m s).
Proof.
  induction r as [w|r1 IH1 r2 IH2|r1 IH1 r2 IH2| | |r IH|r IH|];
    intros R s g k x; cbn [exec].
  - destruct (startswith w s); [|done]. intros H.
    exists (drop (length w) s), g. split; [done|]. split; [|by left].
    apply suffix_drop.
  - intros (s1 & g1 & H1 & Hs1 & Hg1)%IH1.
    apply IH2 in H1 as (s2 & g2 & H2 & Hs2 & Hg2).
    exists s2, g2. split; [done|]. split; [by etrans|].
    destruct Hg2 as [->|(m & -> & Hm)]; [done|].
    right. exists m. split; [done|]. by eapply part_of_suffix.
  - destruct (exec r1 s g k) as [y|] eqn:E.
    + intros [= ->]. by apply IH1.
    + apply IH2.
  - intros (j & _ & Hk & _)%lazy_any_first.
    exists (drop j s), g. split; [done|]. split; [apply suffix_drop | by left].
  - intros (j & Hk)%greedy_space_first.
    exists (drop j s), g. split; [done|]. split; [apply suffix_drop | by left].
  - intros (s1 & g1 & H1 & Hs1 & _)%IH.
    eexists s1, _. split; [exact H1|]. split; [done|].
    right. eexists. split; [done|]. apply part_of_take.
  - destruct (exec r s g (fun _ _ => Some ())); [|done]. intros H.
    exists s, g. split; [done|]. split; [done | by left].
  - destruct s as [|c s'].
    + intros H. exists [], g. split; [done|]. split; [done | by left].
    + destruct (Ascii.eqb c nl); [|done]. intros H.
      exists (c :: s'), g. split; [done|]. split; [done | by left].
Qed.

Lemma match_at_part_of r s m n : match_at r s = Some (m, n) -> part_of m s.
Proof.
  unfold match_at.
  intros (s' & g' & Hk & _ & Hg)%exec_sound.
  destruct Hg as [->|(m' & -> & Hm)]; cbn [default from_option id] in Hk.
  - injection Hk as <- _. apply part_of_take.
  - by injection Hk as <- _.
Qed.

Lemma scan_part_of r s skip m : m ∈ scan r s skip -> part_of m s.
Proof.
  revert skip. induction s as [|c s IH]; intros skip; simpl.
  - by intros ?%elem_of_nil.
  - assert (Hs : forall k, m ∈ scan r s k -> part_of m (c :: s)).
    { intros k Hk%IH. eapply part_of_suffix; [|done]. by apply suffix_cons_r. }
    destruct skip as [|k]; [|apply Hs].
    destruct (match_at r (c :: s)) as [[m' n']|] eqn:E; [|apply Hs].
    intros [->|H]%elem_of_cons; [by eapply match_at_part_of | by eapply Hs].
Qed.

Lemma candidate_matches_part_of text m :
  m ∈ candidate_matches text -> part_of m text.
Proof.
  unfold candidate_matches.
  destruct (findall mermaid_pattern text) as [|m0 ms] eqn:E.
  - unfold extend_with_patterns, diagram_patterns. cbn [foldl].
    rewrite !elem_of_app.
    intros [[[[H%elem_of_nil|H]|H]|H]|H]; [done|..];
      by eapply scan_part_of.
  - rewrite <- E. apply scan_part_of.
Qed.

Lemma strip_part_of s : part_of (strip s) s.
Proof. destruct (strip_spec s) as (l & r & Hs & _). by exists l, r. Qed.

Lemma strip_trimmed s : trimmed (strip s).
Proof. destruct (strip_spec s) as (l & r & _ & _ & _ & Hh & Hl). by split. Qed.

(** X15: every diagram that [_extract_mermaid_diagrams] returns is a
    contiguous piece of the input text, longer than 10 characters, that
    neither starts nor ends with whitespace: the extraction adds nothing of
    its own to the text. *)
Theorem _extract_mermaid_diagrams_sound text l :
  exists diagrams,
    (_extract_mermaid_diagrams text l).1 = Ok diagrams /\
    Forall (fun d => part_of d text /\ 10 < length d /\ trimmed d) diagrams.
Proof.
  eexists. split; [apply _extract_mermaid_diagrams_result|].
  apply Forall_forall. intros d [Hlen Hd]%list_elem_of_filter.
  apply list_elem_of_fmap in Hd as (m & -> & Hm).
  split; [|split; [done | apply strip_trimmed]].
  eapply part_of_trans; [apply strip_part_of|].
  by apply candidate_matches_part_of.
Qed.

(** X16: the code of every diagram that [extract_mermaid_diagrams] returns
    is a contiguous piece of the input text that neither starts nor ends with
    whitespace. *)
Theorem extract_mermaid_diagrams_sound text :
  exists diagrams,
    extract_mermaid_diagrams (PyStr text) = Ok diagrams /\
    Forall (fun d => part_of (code d) text /\ trimmed (code d)) diagrams.
Proof.
  destruct (extract_mermaid_diagrams_str text) as (ds & Hds & _ & Hcode).
  exists ds. split; [done|].
  apply Forall_forall. intros d Hd.
  assert (Hc : code d ∈ code <$> ds) by by apply list_elem_of_fmap_2.
  rewrite Hcode in Hc. apply list_elem_of_fmap in Hc as (m & -> & Hm).
  split; [|apply strip_trimmed].
  eapply part_of_trans; [apply strip_part_of|]. by eapply scan_part_of.
Qed.

(** ** Titles *)

Lemma dec_inj n m : dec n = dec m -> n = m.
Proof.
  unfold dec, lit. intros H.
  apply (f_equal string_of_list_ascii) in H.
  rewrite !string_of_list_ascii_of_string in H.
  apply (f_equal NilEmpty.uint_of_string) in H.
  rewrite !NilEmpty.usu in H. injection H as H.
  by apply Unsigned.to_uint_inj.
Qed.

(** X17: the titles that [extract_mermaid_diagrams] gives are "Diagram 1",
    "Diagram 2", ... in the order of the diagrams, for every text, and no two
    diagrams of one result share a title. *)
Theorem extract_mermaid_diagrams_titles text :
  exists diagrams,
    extract_mermaid_diagrams (PyStr text) = Ok diagrams /\
    title <$> diagrams
    = (fun i => lit "Diagram " ++ dec i) <$> seq 1 (length diagrams) /\
    NoDup (title <$> diagrams).
Proof.
  assert (Htitles : forall ms : list str,
    title <$> imap (fun i m => {| title := lit "Diagram " ++ dec (S i);
                                  code := strip m |}) ms
    = (fun i => lit "Diagram " ++ dec i) <$> seq 1 (length ms)).
  { intros ms. rewrite fmap_imap. unfold compose. cbn [title].
    apply (imap_seq ms (fun i => lit "Diagram " ++ dec i) 1). }
  assert (Hnodup : forall n,
    NoDup ((fun i => lit "Diagram " ++ dec i) <$> seq 1 n)).
  { intros n. apply NoDup_fmap_2; [|apply NoDup_seq].
    intros i j Hij. apply app_inv_head in Hij. by apply dec_inj. }
  destruct text as [|c t].
  - exists []. split; [done|]. split; [done | constructor].
  - eexists. split; [reflexivity|].
    rewrite Htitles, length_imap. split; [done | apply Hnodup].
Qed.

(** ** More on the JSON clean-up *)

Lemma lstrip_app_space l s : forallb isspace l = true -> lstrip (l ++ s) = lstrip s.
Proof.
  induction l as [|c l IH]; [done|]. simpl.
  intros [Hc Hl]%andb_prop. rewrite Hc. by apply IH.
Qed.

Lemma rstrip_space r : forallb isspace r = true -> rstrip r = [].
Proof.
  induction r as [|c r IH]; [done|]. simpl.
  intros [Hc Hr]%andb_prop. by rewrite IH, Hc.
Qed.

Lemma rstrip_app_space s r : forallb isspace r = true -> rstrip (s ++ r) = rstrip s.
Proof.
  intros Hr. induction s as [|c s IH]; simpl.
  - by apply rstrip_space.
  - by rewrite IH.
Qed.

Lemma rstrip_app_nonspace w rest :
  w <> [] -> (forall c, last w = Some c -> isspace c = false) ->
  rstrip (w ++ rest) = w ++ rstrip rest.
Proof.
  induction w as [|c w IH]; [done|]. intros _ Hlast.
  destruct w as [|d w].
  - simpl. rewrite (Hlast c eq_refl). by destruct (rstrip rest).
  - change (rstrip ((c :: d :: w) ++ rest))
      with (match rstrip ((d :: w) ++ rest) with
            | [] => if isspace c then [] else [c]
            | r => c :: r
            end).
    rewrite IH; [done | done |].
    intros x Hx. apply Hlast. by rewrite last_cons_cons.
Qed.

(** The first branch of the clean-up: a trimmed text whose first line is the
    fence marker and whose last line closes the fence. *)
Lemma clean_content_block content body :
  strip content = json_fence ++ nl :: body ++ nl :: lit "```" ->
  clean_content content = body.
Proof.
  intros Hstrip.
  assert (Hlines : split_lines (strip content)
                   = [json_fence] ++ split_lines body ++ [lit "```"]).
  { rewrite Hstrip. by rewrite !split_lines_app. }
  unfold clean_content. rewrite Hlines. rewrite Hstrip at 1.
  rewrite startswith_app.
  rewrite bool_decide_eq_true_2 by done.
  rewrite bool_decide_eq_true_2
    by (rewrite !app_assoc; apply last_snoc).
  cbn [andb]. rewrite !length_app. cbn [length].
  replace (1 + (length (split_lines body) + 1) - 1)
    with (length ([json_fence] ++ split_lines body))
    by (rewrite length_app; simpl; lia).
  rewrite app_assoc, take_app_length.
  cbn [app drop]. apply join_split_lines.
Qed.

(** X18: white space around a fenced JSON block does not matter: a text that
    is one fenced block, with any white space before the opening marker and
    after the closing one, is reduced to exactly the lines between the
    markers. *)
Theorem clean_content_padded_block before after body :
  forallb isspace before = true ->
  forallb isspace after = true ->
  clean_content (before ++ (json_fence ++ nl :: body ++ nl :: lit "```")
                 ++ after) = body.
Proof.
  intros Hb Ha. apply clean_content_block.
  set (block := json_fence ++ nl :: body ++ nl :: lit "```").
  unfold strip. rewrite lstrip_app_space by done.
  assert (Hl : lstrip (block ++ after) = block ++ after) by reflexivity.
  rewrite Hl, rstrip_app_space by done.
  apply strip_rstrip_fixed. intros c. unfold block.
  replace (json_fence ++ nl :: body ++ nl :: lit "```")
    with ((json_fence ++ nl :: body ++ nl :: lit "``") ++ ["`"%char])
    by (rewrite <- !app_assoc; simpl; by rewrite <- !app_assoc).
  rewrite last_snoc. by intros [= <-].
Qed.

Lemma clean_content_padded_block_witness :
  clean_content ([nl; " "%char]
                 ++ (json_fence ++ nl :: lit "{}" ++ nl :: lit "```")
                 ++ [nl; nl]) = lit "{}".
Proof.
  exact (clean_content_padded_block [nl; " "%char] [nl; nl] (lit "{}")
           eq_refl eq_refl).
Defined.

Lemma contains_startswith w s : startswith w s = true -> contains w s = true.
Proof. intros H. destruct s; simpl; by rewrite H. Qed.

Lemma search_hit r s m n : match_at r s = Some (m, n) -> search r s = Some m.
Proof. intros H. destruct s; simpl; by rewrite H. Qed.

(** The JSON pattern on a text that starts with a fenced block whose body
    starts with a character that is not white space. *)
Lemma match_at_json_block b0 body tail :
  isspace b0 = false ->
  contains fence_close (b0 :: body) = false ->
  exists n,
    match_at json_pattern
      (json_fence ++ nl :: (b0 :: body) ++ fence_close ++ tail)
    = Some (b0 :: body, n).
Proof.
  intros Hb0 Hbody. eexists.
  unfold match_at, json_pattern. cbn [exec].
  change (lit "```json") with json_fence.
  rewrite startswith_app, drop_app_length.
  cbn [greedy_space app].
  change (isspace nl) with true. cbv iota. rewrite Hb0.
  assert (Hne : Ascii.eqb nl b0 = false).
  { destruct (Ascii.eqb nl b0) eqn:E; [|done].
    apply Ascii.eqb_eq in E as <-. done. }
  cbn [startswith]. rewrite Hne. cbn [andb].
  rewrite Ascii.eqb_refl. cbn [andb length drop].
  change (b0 :: body ++ fence_close ++ tail)
    with ((b0 :: body) ++ fence_close ++ tail).
  rewrite lazy_any_skip.
  - apply lazy_any_hit.
    rewrite startswith_app, drop_app_length. cbn [default from_option id].
    f_equal. f_equal.
    rewrite !length_app.
    replace (S (length body + (length fence_close + length tail))
             - (length fence_close + length tail))
      with (length (b0 :: body)) by (simpl; lia).
    apply (take_app_length (b0 :: body)).
  - intros j Hj.
    assert (Hd : contains fence_close (drop j (b0 :: body)) = false)
      by by apply contains_drop.
    destruct (drop j (b0 :: body)) as [|c u] eqn:E.
    { apply (f_equal length) in E. rewrite length_drop in E. simpl in E, Hj.
      lia. }
    by rewrite startswith_before by (done || apply fence_close_unbordered).
Qed.

(** X19: a fenced JSON block followed by more text is still found: when the
    text starts with the fence marker, the body starts with a character that
    is not white space and holds no closing fence, and the trimmed text does
    not end with a line that is just the closing marker, the clean-up
    returns the body of the block and drops what follows it. *)
Theorem clean_content_block_then_prose b0 body tail :
  isspace b0 = false ->
  contains fence_close (b0 :: body) = false ->
  last (split_lines
          (strip (json_fence ++ nl :: (b0 :: body) ++ fence_close ++ tail)))
  <> Some (lit "```") ->
  clean_content (json_fence ++ nl :: (b0 :: body) ++ fence_close ++ tail)
  = b0 :: body.
Proof.
  intros Hb0 Hbody Hlast.
  set (content := json_fence ++ nl :: (b0 :: body) ++ fence_close ++ tail)
    in *.
  assert (Hstart : startswith json_fence (strip content) = true).
  { unfold strip.
    assert (Hl : lstrip content = content) by reflexivity.
    rewrite Hl. unfold content.
    rewrite rstrip_app_nonspace; [apply startswith_app | done |].
    intros c. by intros [= <-]. }
  destruct (match_at_json_block b0 body tail Hb0 Hbody) as [n Hn].
  fold content in Hn.
  unfold clean_content. rewrite Hstart.
  rewrite (bool_decide_eq_false_2 (last _ = _)) by done.
  rewrite andb_false_r.
  rewrite (contains_startswith json_fence content)
    by apply startswith_app.
  by rewrite (search_hit _ _ _ _ Hn).
Qed.

Lemma clean_content_block_then_prose_witness :
  clean_content (json_fence ++ nl :: ("{"%char :: lit "}") ++ fence_close
                 ++ nl :: lit "Done.")
  = "{"%char :: lit "}".
Proof.
  apply (clean_content_block_then_prose "{"%char (lit "}") (nl :: lit "Done."));
    [reflexivity | reflexivity | vm_compute; discriminate].
Defined.

(** ** The command line *)

(** X20: [main] stops with exit code 1 before it asks for anything when a
    required variable is unset or empty, and before it runs the crew when the
    requirements typed in are blank; in both cases the last line written
    says why. *)
Theorem main_exits_early {issue} glyph
    (system : BusinessAnalysisSystem issue) environ c :
  let banner :=
    [glyph "rocket" ++ lit " Business Analysis Multi-Agent System";
     replicate 50 "="%char] in
  (forallb (env_set environ) required_vars = false ->
   exists c',
     main issue glyph (Ok system) environ c = (inr (Exit 1), c') /\
     stdin c' = stdin c /\
     stdout c'
     = stdout c ++ banner
       ++ [glyph "cross"
           ++ lit " Environment validation failed. Please check your .env file."])
  /\
  (forallb (env_set environ) required_vars = true ->
   forall line rest, stdin c = line :: rest -> strip line = [] ->
   exists c',
     main issue glyph (Ok system) environ c = (inr (Exit 1), c') /\
     stdin c' = rest /\
     logged c' = logged c /\
     stdout c'
     = stdout c ++ banner
       ++ [glyph "check" ++ lit " Environment validated successfully";
           nl :: glyph "memo"
           ++ lit " Please provide your business requirements:";
           lit "> ";
           glyph "cross" ++ lit " No input provided. Exiting."]).
Proof.
  intros banner. split.
  - intros Henv. eexists.
    unfold main, cli_bind, print, run, lift, sys_exit.
    rewrite validate_environment_run, Henv. cbn.
    split; [reflexivity|]. split; [reflexivity|].
    by rewrite <- !app_assoc.
  - intros Henv line rest Hin Hblank. eexists.
    unfold main, cli_bind, print, run, lift, sys_exit, input, cli_ret.
    rewrite validate_environment_run, Henv. cbn.
    rewrite Hin, Hblank. cbn.
    split; [reflexivity|]. split; [reflexivity|]. split; [reflexivity|].
    by rewrite <- !app_assoc.
Qed.

Lemma main_exits_early_witness :
  let glyph : string -> str := fun name => lit name in
  let system : BusinessAnalysisSystem str :=
    {| crew_kickoff := fun _ _ => Raise (Exception []);
       process_project_manager_output := fun _ => Ok ∅ |} in
  let set : gmap string str :=
    <["JIRA_SERVER" := lit "https://jira.example.com"]>
    (<["JIRA_USERNAME" := lit "ana"]>
    (<["JIRA_API_TOKEN" := lit "secret"]> ∅)) in
  (exists c',
     main str glyph (Ok system) ∅
       {| stdin := [lit "a shop"]; stdout := []; logged := [] |}
     = (inr (Exit 1), c') /\ stdin c' = [lit "a shop"]) /\
  (exists c',
     main str glyph (Ok system) set
       {| stdin := [lit "   "; lit "BA"]; stdout := []; logged := [] |}
     = (inr (Exit 1), c') /\ stdin c' = [lit "BA"]).
Proof.
  intros glyph system set. split.
  - destruct (main_exits_early glyph system ∅
                {| stdin := [lit "a shop"]; stdout := []; logged := [] |})
      as [H _].
    destruct (H eq_refl) as (c' & Hrun & Hin & _). by exists c'.
  - destruct (main_exits_early glyph system set
                {| stdin := [lit "   "; lit "BA"]; stdout := [];
                   logged := [] |}) as [_ H].
    destruct (H eq_refl (lit "   ") [lit "BA"] eq_refl eq_refl)
      as (c' & Hrun & Hin & _).
    by exists c'.
Defined.

(** X21: [main] does not show the results of a run.  With the environment
    set, requirements that are not blank and a second line for the project
    key, it calls the workflow; when that call returns, whatever the dict it
    returns, [main] stops on the [AttributeError] of [result.status]:
    nothing is written after "This may take a few minutes...". *)
Theorem main_never_shows_results {issue} glyph
    (system : BusinessAnalysisSystem issue) environ c line key rest d l' :
  forallb (env_set environ) required_vars = true ->
  stdin c = line :: key :: rest ->
  strip line <> [] ->
  process_user_input issue (crew_kickoff system)
    (process_project_manager_output system) line
    match strip key with
    | [] => None
    | k0 :: k => Some (k0 :: k)
    end (logged c)
  = (Ok d, l') ->
  exists c',
    main issue glyph (Ok system) environ c
    = (inr (Uncaught (dict_attribute_error "status")), c') /\
    stdin c' = rest /\
    logged c' = l' /\
    stdout c'
    = stdout c
      ++ [glyph "rocket" ++ lit " Business Analysis Multi-Agent System";
          replicate 50 "="%char;
          glyph "check" ++ lit " Environment validated successfully";
          nl :: glyph "memo"
          ++ lit " Please provide your business requirements:";
          lit "> ";
          nl :: glyph "target"
          ++ lit " Jira Project Key (optional, press Enter to skip): ";
          nl :: glyph "cycle"
          ++ lit " Processing through multi-agent system...";
          lit "This may take a few minutes..." ++ [nl]].
Proof.
  intros Henv Hin Hline Hrun.
  unfold main, cli_bind, print, run, lift, sys_exit, input, cli_ret.
  rewrite validate_environment_run, Henv. cbn.
  rewrite Hin. cbn [tail stdin stdout logged].
  destruct (strip line) as [|l0 ls] eqn:El; [done|].
  cbn [stdin stdout logged tail].
  rewrite Hrun.
  eexists. split; [reflexivity|]. cbn [stdin stdout logged].
  split; [reflexivity|]. split; [reflexivity|]. by rewrite <- !app_assoc.
Qed.

Lemma main_never_shows_results_witness :
  let glyph : string -> str := fun name => lit name in
  let stage (text : string) : Task := fun _ _ _ =>
    Ok {| task_raw := Some (lit text); task_str := [] |} in
  let system : BusinessAnalysisSystem str :=
    {| crew_kickoff :=
         sequential_kickoff [stage "Requirements"; stage "Design"; stage "{}"];
       process_project_manager_output := fun _ => Ok ∅ |} in
  let set : gmap string str :=
    <["JIRA_SERVER" := lit "https://jira.example.com"]>
    (<["JIRA_USERNAME" := lit "ana"]>
    (<["JIRA_API_TOKEN" := lit "secret"]> ∅)) in
  exists c',
    main str glyph (Ok system) set
      {| stdin := [lit "a shop"; lit "BA"]; stdout := []; logged := [] |}
    = (inr (Uncaught (dict_attribute_error "status")), c') /\
    stdin c' = [].
Proof.
  intros glyph stage system set.
  edestruct (main_never_shows_results glyph system set
               {| stdin := [lit "a shop"; lit "BA"]; stdout := [];
                  logged := [] |} (lit "a shop") (lit "BA") [])
    as (c' & Hrun & Hin & _);
    [reflexivity | reflexivity | done | reflexivity |].
  by exists c'.
Defined.
